(** * Sheikh-AI backend: ingestion loops and the question-answering contract

    A shallow embedding of [backend/main.py]: the Quran and hadith fetch
    loops of [IslamicChatbot.load_data], the paginated helper
    [IslamicChatbot.fetch_all_hadiths], [IslamicChatbot.answer_question]
    and the [chat] handler of [POST /api/chat].

    Conventions.
    - A Python [str] is a list of Unicode code points, so that [len] counts
      what Python counts (the texts are Arabic).
    - The outside world (the two REST services, the QA chain) is a
      parameter of the model.  The client code is deterministic, so a
      service is described by the stream of outcomes it gives to the
      successive calls.
    - [print] is diagnostics only and is left out; [requests.get] and
      [time.sleep] are recorded in a trace of events.
    - Exceptions are values of [exn]; every class listed there derives
      from Python's [Exception]. *)

From Stdlib Require Import ZArith NArith List String Ascii Lia DecimalString.
From stdpp Require Import base option list gmap strings.

Local Open Scope Z_scope.

(** ** Python strings *)

Module PyStr.

Definition lit (s : string) : list N :=
  map N_of_ascii (list_ascii_of_string s).

Definition nl : list N := [10%N].

(** Decimal rendering of a non-negative integer, as an f-string does. *)
Definition str_of_nat (n : nat) : list N :=
  lit (NilEmpty.string_of_uint (Nat.to_uint n)).

(** [str.isspace] on one code point (CPython's [_PyUnicode_IsWhitespace]). *)
Definition is_space (c : N) : bool :=
  ((9 <=? c) && (c <=? 13) || (28 <=? c) && (c <=? 32)
   || (c =? 133) || (c =? 160) || (c =? 5760)
   || (8192 <=? c) && (c <=? 8202)
   || (c =? 8232) || (c =? 8233) || (c =? 8239) || (c =? 8287)
   || (c =? 12288))%N.

Fixpoint lstrip (s : list N) : list N :=
  match s with
  | [] => []
  | c :: s' => if is_space c then lstrip s' else s
  end.

Definition rstrip (s : list N) : list N := rev (lstrip (rev s)).

(** [s.strip()] *)
Definition strip (s : list N) : list N := rstrip (lstrip s).

(** Truth value of a string: [not s] is [negb (truthy s)]. *)
Definition truthy (s : list N) : bool :=
  match s with [] => false | _ :: _ => true end.

(** [len(s)] *)
Definition len (s : list N) : Z := Z.of_nat (length s).

(** ASCII case mapping; the grades it is applied to are ASCII words. *)
Definition lower_char (c : N) : N :=
  if ((65 <=? c) && (c <=? 90))%N then (c + 32)%N else c.
Definition upper_char (c : N) : N :=
  if ((97 <=? c) && (c <=? 122))%N then (c - 32)%N else c.
Definition lower (s : list N) : list N := map lower_char s.
Definition upper (s : list N) : list N := map upper_char s.

(** The question "consists only of whitespace" (the empty string included). *)
Definition all_space (s : list N) : bool := forallb is_space s.

End PyStr.
Import PyStr.

Arguments lit : simpl never.
Arguments str_of_nat : simpl never.

(** ** Exceptions *)

(** The classes that occur; each derives from [Exception]. *)
Inductive exn_class :=
| HTTPException (status_code : Z) (detail : option (list N))
| KeyError
| AttributeError
| IndexError
| RequestException
| OtherException.

(** An exception instance: its class and what [str(e)] gives. *)
Record exn := mk_exn { exn_class_of : exn_class; exn_str : list N }.

Inductive result (A : Type) :=
| Ok (a : A)
| Raise (e : exn).
Arguments Ok {A} a.
Arguments Raise {A} e.

Definition bind_result {A B} (r : result A) (k : A -> result B) : result B :=
  match r with
  | Ok a => k a
  | Raise e => Raise e
  end.

(** [try: body except Exception as e: handler(e)], the handler may raise. *)
Definition try_except {A} (body : result A) (handler : exn -> result A)
  : result A :=
  match body with
  | Ok a => Ok a
  | Raise e => handler e
  end.

(** The same with a handler that returns. *)
Definition try_except_return {A} (body : result A) (handler : exn -> A) : A :=
  match body with
  | Ok a => a
  | Raise e => handler e
  end.

(** [d[key]] on a dictionary: [KeyError(key)] when absent; [str] of a
    [KeyError] is the [repr] of the key. *)
Definition getitem (d : gmap string (list N)) (key : string)
  : result (list N) :=
  match d !! key with
  | Some v => Ok v
  | None => Raise (mk_exn KeyError (lit "'" ++ lit key ++ lit "'"))
  end.

(** ** The answering service *)

Module Answering.

(** What [qa_chain.invoke] hands back under the key ['result']: a string,
    [None], or an object of another type (its truth value and the name of
    its type, which has no [strip] method). *)
Inductive pyobj :=
| PStr (s : list N)
| PNone
| PObj (truth : bool) (type_name : list N).

(** The value returned by [invoke]: a dict (with or without the key
    ['result']) or something else, of which only [str(response)] is used. *)
Inductive response :=
| RDict (entry : option pyobj)
| ROther (str : list N).

(** One call of the chain either returns or raises an [Exception]
    instance. *)
Inductive chain_outcome :=
| Returns (r : response)
| Raises (e : exn).

(** The chain, as a function of the query it is invoked with. *)
Definition chain := list N -> chain_outcome.

(** The dictionaries built by [answer_question]. *)
Definition error_result (msg : list N) : gmap string (list N) :=
  {[ "error" := msg; "status" := lit "error" ]}.

Definition success_result (answer : list N) : gmap string (list N) :=
  {[ "answer" := answer; "status" := lit "success" ]}.

Definition msg_uninitialized : list N :=
  lit "QA chain not initialized. Please call setup_qa_chain() first.".
Definition msg_invalid_question : list N :=
  lit "Please provide a valid question.".
Definition msg_invalid_answer : list N :=
  lit "Generated response was invalid or too short.".
Definition msg_error (e : exn) : list N :=
  lit "An error occurred: " ++ exn_str e.

(** [answer = response['result'] if isinstance(response, dict)
              else str(response)] *)
Definition extract_answer (r : response) : result pyobj :=
  match r with
  | RDict (Some v) => Ok v
  | RDict None => Raise (mk_exn KeyError (lit "'result'"))
  | ROther s => Ok (PStr s)
  end.

(** [if not answer or len(answer.strip()) < 10: error else: success] *)
Definition validate_answer (answer : pyobj)
  : result (gmap string (list N)) :=
  match answer with
  | PStr s =>
      if negb (truthy s) || (len (strip s) <? 10)
      then Ok (error_result msg_invalid_answer)
      else Ok (success_result s)
  | PNone => Ok (error_result msg_invalid_answer)
  | PObj false _ => Ok (error_result msg_invalid_answer)
  | PObj true ty =>
      Raise (mk_exn AttributeError
               (lit "'" ++ ty ++ lit "' object has no attribute 'strip'"))
  end.

(** [self.qa_chain.invoke({"query": question})] *)
Definition invoke_chain (invoke : chain) (question : list N)
  : result response :=
  match invoke question with
  | Returns r => Ok r
  | Raises e => Raise e
  end.

(** [answer_question]: the result dictionary, and the log of the queries
    with which [self.qa_chain.invoke] was called. *)
Definition answer_question (qa_chain : option chain) (question : list N)
  : gmap string (list N) * list (list N) :=
  match qa_chain with
  | None => (error_result msg_uninitialized, [])
  | Some invoke =>
      let '(body, calls) :=
        if negb (truthy (strip question))
        then (Ok (error_result msg_invalid_question), [])
        else (bind_result (invoke_chain invoke question) (fun response =>
              bind_result (extract_answer response) validate_answer),
              [question]) in
      (try_except_return body (fun e => error_result (msg_error e)), calls)
  end.

End Answering.

(** ** The HTTP handler *)

Module Http.
Import Answering.

Section Chat.

(** [str(e)] of a Starlette [HTTPException], left to the installed
    version of the framework. *)
Variable str_HTTPException : Z -> option (list N) -> list N.

Definition raise_HTTPException {A} (status_code : Z)
    (detail : option (list N)) : result A :=
  Raise (mk_exn (HTTPException status_code detail)
           (str_HTTPException status_code detail)).

(** [chat]: what the handler returns, or the exception it leaves with. *)
Definition chat (qa_chain : option chain) (question : list N)
  : result (gmap string (list N)) :=
  try_except
    (let response := fst (answer_question qa_chain question) in
     if decide (response !! "status" = Some (lit "success"))
     then bind_result (getitem response "answer") (fun answer =>
          Ok {[ "answer" := answer ]})
     else raise_HTTPException 400 (response !! "error"))
    (fun e => raise_HTTPException 500 (Some (exn_str e))).

(** The status line of the reply: 200 for a returned body, the status of
    an [HTTPException], and the framework's 500 for anything else. *)
Definition http_status (r : result (gmap string (list N))) : Z :=
  match r with
  | Ok _ => 200
  | Raise e =>
      match exn_class_of e with
      | HTTPException status_code _ => status_code
      | _ => 500
      end
  end.

Definition http_detail (r : result (gmap string (list N)))
  : option (list N) :=
  match r with
  | Ok _ => None
  | Raise e =>
      match exn_class_of e with
      | HTTPException _ detail => detail
      | _ => None
      end
  end.

End Chat.

End Http.

(** ** The network: requests, delays and their trace *)

Module Net.

(** What [requests.get] does: a response with its status code and JSON
    body, or a [requests.exceptions.RequestException] ([str(e)] given). *)
Inductive outcome (P : Type) :=
| Response (status_code : Z) (json : P)
| Unreachable (msg : list N).
Arguments Response {P} status_code json.
Arguments Unreachable {P} msg.

(** JSON bodies, one shape per endpoint.  Field values are the strings an
    f-string renders them to.  A body of status 200 is one of the layout
    that the code reads; a body of another layout, on which the look-ups
    of [load_data] would raise [KeyError], [TypeError] or [AttributeError],
    is not a value of these types, and no statement below is about it. *)

(** [data['data'][0]['ayahs']] and [data['data'][1]['ayahs']], each ayah
    reduced to its ['text']. *)
Record quran_body := {
  arabic_ayahs : list (list N);
  english_ayahs : list (list N) }.

(** A hadith of [/api/hadiths]: its own fields and the nested ['book'] and
    ['chapter'] objects (empty when absent). *)
Record hadith_entry := {
  fields : gmap string (list N);
  book : gmap string (list N);
  chapter : gmap string (list N) }.

(** The page of [/api/hadiths]: [data['hadiths']['data']] and
    [data['hadiths']['current_page']]; [None] when the body is not JSON. *)
Definition hadith_body : Type := option (list hadith_entry).

(** The page of [/public/api/hadiths]: [data.get('hadiths', [])]. *)
Definition public_body : Type := list (gmap string (list N)).

Inductive event :=
| Get (url : list N) (params : gmap string (list N))
| Sleep (seconds : Z)
| CreateIndex (documents : list (list N)).

(** The services: the outcome of the n-th call still to come, per
    endpoint, and whether building the vector store fails. *)
Record world := {
  quran_api : nat -> outcome quran_body;
  hadith_api : nat -> outcome hadith_body;
  public_api : nat -> outcome public_body;
  index_error : option exn }.

(** Computations: from a world to a result, the events emitted, and the
    world that remains. *)
Definition M (A : Type) : Type := world -> result A * list event * world.

Definition ret {A} (a : A) : M A := fun w => (Ok a, [], w).

Definition raise {A} (e : exn) : M A := fun w => (Raise e, [], w).

Definition bind {A B} (m : M A) (k : A -> M B) : M B :=
  fun w =>
    match m w with
    | (Ok a, tr, w') =>
        match k a w' with
        | (r, tr', w'') => (r, tr ++ tr', w'')
        end
    | (Raise e, tr, w') => (Raise e, tr, w')
    end.

Definition emit (e : event) : M unit := fun w => (Ok tt, [e], w).

Definition lift {A} (r : result A) : M A := fun w => (r, [], w).

(** [try: m except C as e: handler(e)] for the exceptions [catches]
    accepts; any other exception goes on. *)
Definition try_catch {A} (catches : exn -> bool) (m : M A)
    (handler : exn -> M A) : M A :=
  fun w =>
    match m w with
    | (Ok a, tr, w') => (Ok a, tr, w')
    | (Raise e, tr, w') =>
        if catches e then
          match handler e w' with
          | (r, tr', w'') => (r, tr ++ tr', w'')
          end
        else (Raise e, tr, w')
    end.

Definition trace {A} (m : M A) (w : world) : list event := snd (fst (m w)).
Definition outcome_of {A} (m : M A) (w : world) : result A := fst (fst (m w)).

End Net.
Import Net.

#[global] Instance M_ret : MRet M := @Net.ret.
#[global] Instance M_bind : MBind M := fun A B k m => Net.bind m k.

(** [time.sleep(seconds)], for a delay that it takes; where the delay is a
    parameter of the code, the statements about retries assume it is one. *)
Definition sleep (seconds : Z) : M unit := emit (Sleep seconds).

Definition shift {A} (f : nat -> A) : nat -> A := fun n => f (S n).

Definition answer_of {P} (o : outcome P) : result (Z * P) :=
  match o with
  | Response status_code json => Ok (status_code, json)
  | Unreachable msg => Raise (mk_exn RequestException msg)
  end.

(** The world after one call to an endpoint. *)
Definition pop_quran (w : world) : world :=
  {| quran_api := shift (quran_api w); hadith_api := hadith_api w;
     public_api := public_api w; index_error := index_error w |}.

Definition pop_hadith (w : world) : world :=
  {| quran_api := quran_api w; hadith_api := shift (hadith_api w);
     public_api := public_api w; index_error := index_error w |}.

Definition pop_public (w : world) : world :=
  {| quran_api := quran_api w; hadith_api := hadith_api w;
     public_api := shift (public_api w); index_error := index_error w |}.

(** [requests.get] against each of the three endpoints ([timeout] and
    [headers] are not recorded). *)
Definition get_quran (url : list N) : M (Z * quran_body) :=
  fun w => (answer_of (quran_api w 0), [Get url ∅], pop_quran w).

Definition get_hadith (url : list N) (params : gmap string (list N))
  : M (Z * hadith_body) :=
  fun w => (answer_of (hadith_api w 0), [Get url params], pop_hadith w).

Definition get_public (url : list N) (params : gmap string (list N))
  : M (Z * public_body) :=
  fun w => (answer_of (public_api w 0), [Get url params], pop_public w).

Definition is_RequestException (e : exn) : bool :=
  match exn_class_of e with RequestException => true | _ => false end.

Definition is_Exception (e : exn) : bool := true.

(** [d.get(key, default)] *)
Definition dict_get (d : gmap string (list N)) (key : string)
    (default : list N) : list N :=
  match d !! key with Some v => v | None => default end.

(** ** [load_data]: the Quran loop *)

Module Quran.

(** The text of one verse document. *)
Definition verse_text (surah ayah_idx : nat) (arabic_text english_text : list N)
  : list N :=
  lit "Quran " ++ str_of_nat surah ++ lit ":" ++ str_of_nat ayah_idx ++ nl
  ++ lit "Arabic: " ++ arabic_text ++ nl
  ++ lit "English: " ++ english_text.

(** [ayahs[i]] on a list: [IndexError] out of range. *)
Definition index (ayahs : list (list N)) (i : nat) : result (list N) :=
  match ayahs !! i with
  | Some text => Ok text
  | None => Raise (mk_exn IndexError (lit "list index out of range"))
  end.

(** [for ayah_idx, ayah in enumerate(arabic, 1)]: the English text is
    looked up at [ayah_idx - 1]; each document is appended. *)
Fixpoint pair_ayahs (surah : nat) (english : list (list N)) (ayah_idx : nat)
    (arabic : list (list N)) (documents : list (list N))
  : result (list (list N)) :=
  match arabic with
  | [] => Ok documents
  | arabic_text :: rest =>
      bind_result (index english (ayah_idx - 1)%nat) (fun english_text =>
      pair_ayahs surah english (S ayah_idx) rest
        (documents ++ [verse_text surah ayah_idx arabic_text english_text]))
  end.

Definition max_retries : Z := 3.
Definition retry_delay : Z := 2.
Definition total_surahs : nat := 114.

Definition surah_url (surah : nat) : list N :=
  lit "http://api.alquran.cloud/v1/surah/" ++ str_of_nat surah
  ++ lit "/editions/quran-uthmani,en.asad".

(** [if attempt < max_retries - 1: time.sleep(retry_delay); continue];
    otherwise the iteration just ends. *)
Definition pause_before_retry (attempt : nat) : M unit :=
  if Z.of_nat attempt <? max_retries - 1 then sleep retry_delay else mret tt.

(** [for attempt in range(max_retries)] for one surah; [attempts] are the
    values of [attempt] still to run. *)
Fixpoint surah_attempts (surah : nat) (attempts : list nat)
    (documents : list (list N)) : M (list (list N)) :=
  match attempts with
  | [] => mret documents
  | attempt :: rest =>
      r ← try_catch is_RequestException
            (response ← get_quran (surah_url surah);
             if fst response =? 200 then
               documents' ← lift (pair_ayahs surah
                                    (english_ayahs (snd response)) 1
                                    (arabic_ayahs (snd response)) documents);
               mret (Some documents')
             else
               pause_before_retry attempt;; mret None)
            (fun e => pause_before_retry attempt;; mret None);
      match r with
      | Some documents' => mret documents'
      | None => surah_attempts surah rest documents
      end
  end.

Definition fetch_surah (surah : nat) (documents : list (list N))
  : M (list (list N)) :=
  surah_attempts surah (seq 0 (Z.to_nat max_retries)) documents.

(** [for surah in range(1, total_surahs + 1)] *)
Fixpoint surah_loop (surahs : list nat) (documents : list (list N))
  : M (list (list N)) :=
  match surahs with
  | [] => mret documents
  | surah :: rest =>
      documents' ← fetch_surah surah documents;
      surah_loop rest documents'
  end.

Definition fetch_quran (documents : list (list N)) : M (list (list N)) :=
  surah_loop (seq 1 total_surahs) documents.

End Quran.

Arguments Quran.surah_url : simpl never.
Arguments Quran.verse_text : simpl never.

(** ** [load_data]: the hadith loop and the vector store *)

Module LoadData.

Definition hadith_url : list N := lit "https://www.hadithapi.com/api/hadiths".

Definition collections : list (list N) :=
  [lit "sahih-bukhari"; lit "sahih-muslim"].

(** [if '?' not in url: url = f"{url}?apiKey={hadith_api_key}"] *)
Definition keyed_url (url hadith_api_key : list N) : list N :=
  if existsb (N.eqb 63) url then url
  else url ++ lit "?apiKey=" ++ hadith_api_key.

Definition hadith_params (hadith_api_key collection : list N)
  : gmap string (list N) :=
  {[ "apiKey" := hadith_api_key; "book" := collection;
     "status" := lit "sahih" ]}.

Definition hadith_text (collection : list N) (hadith : hadith_entry) : list N :=
  let book_name := dict_get (book hadith) "bookName" collection in
  let writer_name := dict_get (book hadith) "writerName" (lit "N/A") in
  let chapter_number := dict_get (chapter hadith) "chapterNumber" (lit "N/A") in
  let chapter_english := dict_get (chapter hadith) "chapterEnglish" (lit "N/A") in
  let chapter_arabic := dict_get (chapter hadith) "chapterArabic" (lit "N/A") in
  let get key default := dict_get (fields hadith) key default in
  lit "Hadith: " ++ book_name ++ nl
  ++ lit "Writer: " ++ writer_name ++ nl
  ++ lit "Grade: " ++ get "status" (lit "N/A") ++ nl
  ++ lit "Volume: " ++ get "volume" (lit "N/A") ++ nl
  ++ lit "Number: " ++ get "hadithNumber" (lit "N/A") ++ nl
  ++ lit "Chapter: " ++ chapter_number ++ lit " - " ++ chapter_english ++ nl
  ++ lit "Chapter (Arabic): " ++ chapter_arabic ++ nl
  ++ lit "Heading: " ++ get "headingEnglish" [] ++ nl
  ++ lit "Heading (Arabic): " ++ get "headingArabic" [] ++ nl
  ++ lit "Narrator: " ++ get "englishNarrator" [] ++ nl
  ++ lit "Arabic: " ++ get "hadithArabic" [] ++ nl
  ++ lit "English: " ++ get "hadithEnglish" [] ++ nl
  ++ lit "Reference: " ++ book_name ++ lit " Volume "
  ++ get "volume" (lit "N/A") ++ lit ", Hadith "
  ++ get "hadithNumber" (lit "N/A").

(** The body of [for collection in collections]: one request, and the
    documents of the page it returns when the status is 200 and the body
    is JSON; every other branch is [continue]. *)
Definition fetch_collection (hadith_api_key collection : list N)
    (documents : list (list N)) : M (list (list N)) :=
  response ← get_hadith (keyed_url hadith_url hadith_api_key)
                        (hadith_params hadith_api_key collection);
  if fst response =? 200 then
    match snd response with
    | Some hadiths => mret (documents ++ map (hadith_text collection) hadiths)
    | None => mret documents
    end
  else mret documents.

Fixpoint collection_loop (hadith_api_key : list N) (cs : list (list N))
    (documents : list (list N)) : M (list (list N)) :=
  match cs with
  | [] => mret documents
  | collection :: rest =>
      documents' ← fetch_collection hadith_api_key collection documents;
      collection_loop hadith_api_key rest documents'
  end.

(** [Chroma.from_documents] over the split documents. *)
Definition create_index (documents : list (list N)) : M unit :=
  fun w =>
    (match index_error w with Some e => Raise e | None => Ok tt end,
     [CreateIndex documents], w).

(** [load_data]: [Some documents] when the vector store was built from
    [documents], [None] when it returned before (no hadith key).  The two
    handlers that print and re-raise leave the exception as it is. *)
Definition load_data (HADITH_API_KEY : option (list N))
  : M (option (list (list N))) :=
  documents ← Quran.fetch_quran [];
  match HADITH_API_KEY with
  | None | Some [] => mret None
  | Some hadith_api_key =>
      documents' ← collection_loop hadith_api_key collections documents;
      create_index documents';;
      mret (Some documents')
  end.

End LoadData.

(** ** [fetch_all_hadiths] *)

Module FetchAll.

Definition public_url : list N :=
  lit "https://www.hadithapi.com/public/api/hadiths".

Definition per_page : nat := 25.

Definition page_params (api_key collection : list N) (page : nat)
  : gmap string (list N) :=
  {[ "apiKey" := api_key; "book" := collection;
     "status" := lit "sahih,hasan";
     "paginate" := str_of_nat per_page; "page" := str_of_nat page ]}.

Definition hadith_text (collection : list N) (hadith : gmap string (list N))
  : list N :=
  let hadith_number := dict_get hadith "hadithNumber" (lit "N/A") in
  let chapter := dict_get hadith "chapter" (lit "N/A") in
  let status := lower (dict_get hadith "status" []) in
  let arabic := dict_get hadith "hadithArabic" [] in
  let english := dict_get hadith "hadithEnglish" [] in
  lit "Hadith: " ++ collection ++ nl
  ++ lit "Grade: " ++ upper status ++ nl
  ++ lit "Number: " ++ hadith_number ++ nl
  ++ lit "Chapter: " ++ chapter ++ nl
  ++ lit "Arabic: " ++ arabic ++ nl
  ++ lit "English: " ++ english.

(** How one pass of [for attempt in range(max_retries)] leaves. *)
Inductive leave :=
| Return (documents : list (list N))
| Break (documents : list (list N)) (page : nat)
| Continue.

Section Loop.

Variables (collection api_key : list N) (max_retries retry_delay : Z).

(** [if attempt < max_retries - 1: time.sleep(retry_delay); continue
     return documents] *)
Definition retry_or_return (attempt : nat) (documents : list (list N))
  : M leave :=
  if Z.of_nat attempt <? max_retries - 1
  then sleep retry_delay;; mret Continue
  else mret (Return documents).

(** The body of the [try] for one attempt. *)
Definition attempt_body (attempt : nat) (documents : list (list N))
    (page : nat) : M leave :=
  response ← get_public public_url (page_params api_key collection page);
  let status_code := fst response in
  if status_code =? 200 then
    match snd response with
    | [] => mret (Return documents)
    | hadiths =>
        sleep 1;;
        mret (Break (documents ++ map (hadith_text collection) hadiths)
                    (S page))
    end
  else if status_code =? 401 then mret (Return documents)
  else if status_code =? 403 then mret (Return documents)
  else if status_code =? 404 then mret (Return documents)
  else retry_or_return attempt documents.

(** [for attempt in range(max_retries)]: ends with [return], with [break],
    or, when the range is empty, without either ([Continue]). *)
Fixpoint page_attempts (attempts : list nat) (documents : list (list N))
    (page : nat) : M leave :=
  match attempts with
  | [] => mret Continue
  | attempt :: rest =>
      l ← try_catch is_Exception (attempt_body attempt documents page)
            (fun e => retry_or_return attempt documents);
      match l with
      | Continue => page_attempts rest documents page
      | _ => mret l
      end
  end.

Definition fetch_page (documents : list (list N)) (page : nat) : M leave :=
  page_attempts (seq 0 (Z.to_nat max_retries)) documents page.

(** [while True]: [fuel] bounds the number of passes; [None] when it runs
    out before the function returns. *)
Fixpoint while_loop (fuel : nat) (documents : list (list N)) (page : nat)
  : M (option (list (list N))) :=
  match fuel with
  | O => mret None
  | S fuel' =>
      l ← fetch_page documents page;
      match l with
      | Return documents' => mret (Some documents')
      | Break documents' page' => while_loop fuel' documents' page'
      | Continue => while_loop fuel' documents page
      end
  end.

Definition fetch_all_hadiths (fuel : nat) : M (option (list (list N))) :=
  while_loop fuel [] 1%nat.

End Loop.

End FetchAll.

(** * Vocabulary of the statements *)

(** ** Results and chains *)

Module Vocabulary.
Import Answering.

(** The two shapes a result can have. *)
Definition well_formed (d : gmap string (list N)) : Prop :=
  (d !! "status" = Some (lit "success") /\ is_Some (d !! "answer"))
  \/ (d !! "status" = Some (lit "error") /\ is_Some (d !! "error")).

(** The chain's response carries the text [s]: under ['result'] when it
    is a dict, as [str(response)] otherwise. *)
Definition generated (r : response) (s : list N) : Prop :=
  extract_answer r = Ok (PStr s).

(** A chain that would answer anything with a long text. *)
Definition talkative : chain :=
  fun _ => Returns (RDict (Some (PStr (lit "Patience is a virtue.")))).

(** A chain that answers anything with the text [s]. *)
Definition says (s : list N) : chain :=
  fun _ => Returns (RDict (Some (PStr s))).

End Vocabulary.
Import Vocabulary.

(** ** Traces *)

(** [tr] in front of what a computation emitted. *)
Definition after {A} (tr : list event) (x : result A * list event * world)
  : result A * list event * world :=
  (fst (fst x), tr ++ snd (fst x), snd x).

(** The delay that follows a failed attempt: none after the last one. *)
Definition retry_events (attempt : nat) : list event :=
  if Z.of_nat attempt <? Quran.max_retries - 1 then [Sleep Quran.retry_delay] else [].

(** The statuses on which the hadith code gives up at once. *)
Definition terminal (status_code : Z) : bool :=
  (status_code =? 401) || (status_code =? 403) || (status_code =? 404).

(** An attempt at a surah fails: any status but 200, or no response. *)
Definition surah_failed (o : outcome quran_body) : bool :=
  match o with
  | Response status_code _ => negb (status_code =? 200)
  | Unreachable _ => true
  end.

(** An attempt at a page fails and may be repeated: a status that is
    neither 200 nor terminal, or no response. *)
Definition page_failed (o : outcome public_body) : bool :=
  match o with
  | Response status_code _ =>
      negb (status_code =? 200) && negb (terminal status_code)
  | Unreachable _ => true
  end.

(** The world after [n] calls to [/public/api/hadiths]. *)
Fixpoint pop_public_n (n : nat) (w : world) : world :=
  match n with
  | O => w
  | S n' => pop_public_n n' (pop_public w)
  end.

(** The requests for [n] full pages from [page] on, each followed by the
    pause of one second. *)
Fixpoint page_events (collection api_key : list N) (n : nat) (page : nat) : list event :=
  match n with
  | O => []
  | S n' =>
      Get FetchAll.public_url (FetchAll.page_params api_key collection page) :: Sleep 1
      :: page_events collection api_key n' (S page)
  end.

(** [prefix] is how [s] starts. *)
Fixpoint starts_with (prefix s : list N) : bool :=
  match prefix, s with
  | [], _ => true
  | p :: prefix', c :: s' => (p =? c)%N && starts_with prefix' s'
  | _ :: _, [] => false
  end.

Definition hadith_host : list N := lit "https://www.hadithapi.com/".

(** The parameters of the requests of a trace that go to the hadith
    service, in order. *)
Definition hadith_requests (tr : list event) : list (gmap string (list N)) :=
  omap (fun ev =>
          match ev with
          | Get url params =>
              if starts_with hadith_host url then Some params else None
          | _ => None
          end) tr.

(** ** Pairing *)

(** The documents of a surah when every ayah of the original edition has
    its translation: ayah [i] with ayah [i], numbered from 1. *)
Definition paired_from (surah k : nat) (arabic english : list (list N))
  : list (list N) :=
  imap (fun i ae => Quran.verse_text surah (S (k + i)) (fst ae) (snd ae))
       (zip arabic english).

Definition paired (surah : nat) (arabic english : list (list N))
  : list (list N) :=
  paired_from surah 0 arabic english.

(** ** Sample worlds *)

Module Samples.

(** A service that answers the calls with [l], in order, and then keeps
    giving [last]. *)
Definition script {P} (l : list (outcome P)) (last : outcome P)
  : nat -> outcome P :=
  fun n => match l !! n with Some o => o | None => last end.

Definition no_quran : quran_body :=
  {| arabic_ayahs := []; english_ayahs := [] |}.

(** Nothing can be reached. *)
Definition offline : world :=
  {| quran_api := fun _ => Unreachable (lit "offline");
     hadith_api := fun _ => Unreachable (lit "offline");
     public_api := fun _ => Unreachable (lit "offline");
     index_error := None |}.

Definition with_quran (api : nat -> outcome quran_body) (w : world) : world :=
  {| quran_api := api; hadith_api := hadith_api w;
     public_api := public_api w; index_error := index_error w |}.

Definition with_hadith (api : nat -> outcome hadith_body) (w : world)
  : world :=
  {| quran_api := quran_api w; hadith_api := api;
     public_api := public_api w; index_error := index_error w |}.

Definition with_public (api : nat -> outcome public_body) (w : world)
  : world :=
  {| quran_api := quran_api w; hadith_api := hadith_api w;
     public_api := api; index_error := index_error w |}.

(** Two ayahs in both editions. *)
Definition two_ayahs : quran_body :=
  {| arabic_ayahs := [[1576; 1587; 1605]%N; [1575; 1604; 1581; 1605; 1583]%N];
     english_ayahs := [lit "In the name of God"; lit "All praise is due"] |}.

(** Two ayahs in the original, one in the translation. *)
Definition short_translation : quran_body :=
  {| arabic_ayahs := [[1576; 1587; 1605]%N; [1575; 1604; 1581; 1605; 1583]%N];
     english_ayahs := [lit "In the name of God"] |}.

(** One ayah in the original, two in the translation. *)
Definition long_translation : quran_body :=
  {| arabic_ayahs := [[1576; 1587; 1605]%N];
     english_ayahs := [lit "In the name of God"; lit "All praise is due"] |}.

Definition a_hadith : hadith_entry :=
  {| fields := {[ "hadithNumber" := lit "1"; "status" := lit "Sahih" ]};
     book := {[ "bookName" := lit "Sahih Bukhari" ]};
     chapter := ∅ |}.

Definition a_public_hadith : gmap string (list N) :=
  {[ "hadithNumber" := lit "1"; "status" := lit "Sahih" ]}.

Definition key : list N := lit "secret".

End Samples.
Import Samples.

(** Every answer is 404. *)
Definition not_found : world :=
  {| quran_api := fun _ => Response 404 no_quran;
     hadith_api := fun _ => Response 404 None;
     public_api := fun _ => Response 404 [];
     index_error := None |}.

(** Two pages of hadiths and an empty third one. *)
Definition three_pages : world :=
  with_public
    (script [Response 200 [a_public_hadith; a_public_hadith];
             Response 200 [a_public_hadith]]
       (Response 200 [])) offline.

(** The Quran service has nothing, the hadith service always returns a
    page with one hadith. *)
Definition generous : world :=
  {| quran_api := fun _ => Response 200 no_quran;
     hadith_api := fun _ => Response 200 (Some [a_hadith]);
     public_api := fun _ => Response 200 [a_public_hadith];
     index_error := None |}.

(** The hadith service answers 503 once and is back afterwards. *)
Definition flaky : world :=
  with_hadith (script [Response 503 None] (Response 200 (Some [a_hadith])))
    generous.

(** The hadith service cannot be reached. *)
Definition hadith_down : world :=
  with_hadith (fun _ => Unreachable (lit "connection refused")) generous.

(** * The startup and the schema migration *)

(** ** [startup_event] and [setup_qa_chain] *)

Module Startup.
Import Answering.

(** The two attributes of [IslamicChatbot] that the startup assigns: the
    vector store (here the documents it was built from) and the chain. *)
Record chatbot := {
  vector_store : option (list (list N));
  qa_chain : option chain }.

(** [IslamicChatbot()] *)
Definition init : chatbot := {| vector_store := None; qa_chain := None |}.

(** The constructors that [setup_qa_chain] calls: [ChatOpenAI(...)] raises
    or not, [RetrievalQA.from_chain_type] over the retriever of a store
    returns the chain or raises.  [PromptTemplate] over the fixed template
    is taken to succeed. *)
Record framework := {
  new_llm : option exn;
  from_chain_type : list (list N) -> result chain }.

(** [self.vector_store.as_retriever(...)] *)
Definition as_retriever (store : option (list (list N)))
  : result (list (list N)) :=
  match store with
  | Some documents => Ok documents
  | None =>
      Raise (mk_exn AttributeError
               (lit "'NoneType' object has no attribute 'as_retriever'"))
  end.

(** [setup_qa_chain]: the chatbot with its chain assigned, or the
    exception it leaves with (the chatbot is then unchanged). *)
Definition setup_qa_chain (fw : framework) (bot : chatbot) : result chatbot :=
  match new_llm fw with
  | Some e => Raise e
  | None =>
      bind_result (as_retriever (vector_store bot)) (fun retriever =>
      bind_result (from_chain_type fw retriever) (fun c =>
      Ok {| vector_store := vector_store bot; qa_chain := Some c |}))
  end.

(** [startup_event]: [load_data], then [setup_qa_chain], any exception of
    either caught and printed. *)
Definition startup_event (fw : framework) (HADITH_API_KEY : option (list N))
    (w : world) : chatbot * list event * world :=
  match LoadData.load_data HADITH_API_KEY w with
  | (Ok built, tr, w') =>
      let bot := {| vector_store := built; qa_chain := None |} in
      (try_except_return (setup_qa_chain fw bot) (fun _ => bot), tr, w')
  | (Raise _, tr, w') => (init, tr, w')
  end.

(** The chatbot that serves the requests after the startup. *)
Definition started (fw : framework) (HADITH_API_KEY : option (list N))
    (w : world) : chatbot :=
  fst (fst (startup_event fw HADITH_API_KEY w)).

End Startup.

(** ** The initial migration *)

Module Migration.

Inductive column_type := Integer | String_ | Boolean | ArrayOfFloat.

#[global] Instance column_type_eq_dec : EqDecision column_type.
Proof. solve_decision. Defined.

Record column := {
  col_name : string;
  col_type : column_type;
  nullable : bool }.

Inductive table_constraint :=
| PrimaryKeyConstraint (cols : list string)
| UniqueConstraint (cols : list string)
| ForeignKeyConstraint (cols : list string) (ref_table : string)
    (ref_cols : list string).

Record table := {
  tbl_name : string;
  columns : list column;
  constraints : list table_constraint }.

Inductive operation :=
| create_table (t : table)
| drop_table (name : string).

Definition id_column : column :=
  {| col_name := "id"; col_type := Integer; nullable := false |}.

Definition col (name : string) (ty : column_type) : column :=
  {| col_name := name; col_type := ty; nullable := true |}.

Definition hadith_collections : table :=
  {| tbl_name := "hadith_collections";
     columns := [id_column; col "name" String_; col "name_arabic" String_];
     constraints := [PrimaryKeyConstraint ["id"]] |}.

Definition narrators : table :=
  {| tbl_name := "narrators";
     columns := [id_column; col "name" String_; col "name_arabic" String_];
     constraints := [PrimaryKeyConstraint ["id"]] |}.

Definition surahs : table :=
  {| tbl_name := "surahs";
     columns := [id_column; col "name" String_; col "name_arabic" String_;
                 col "is_makki" Boolean; col "verses_count" Integer];
     constraints := [PrimaryKeyConstraint ["id"]] |}.

Definition topics : table :=
  {| tbl_name := "topics";
     columns := [id_column; col "name" String_; col "name_arabic" String_];
     constraints := [PrimaryKeyConstraint ["id"]; UniqueConstraint ["name"]] |}.

Definition hadiths : table :=
  {| tbl_name := "hadiths";
     columns := [id_column; col "collection_id" Integer;
                 col "hadith_number" Integer; col "chapter_number" Integer;
                 col "arabic" String_; col "english" String_;
                 col "grading" String_];
     constraints :=
       [ForeignKeyConstraint ["collection_id"] "hadith_collections" ["id"];
        PrimaryKeyConstraint ["id"]] |}.

Definition verses : table :=
  {| tbl_name := "verses";
     columns := [id_column; col "surah_id" Integer; col "verse_number" Integer;
                 col "arabic" String_; col "english" String_;
                 col "embedding" ArrayOfFloat];
     constraints :=
       [ForeignKeyConstraint ["surah_id"] "surahs" ["id"];
        PrimaryKeyConstraint ["id"]] |}.

Definition hadith_narrators : table :=
  {| tbl_name := "hadith_narrators";
     columns := [col "hadith_id" Integer; col "narrator_id" Integer];
     constraints :=
       [ForeignKeyConstraint ["hadith_id"] "hadiths" ["id"];
        ForeignKeyConstraint ["narrator_id"] "narrators" ["id"]] |}.

Definition hadith_topics : table :=
  {| tbl_name := "hadith_topics";
     columns := [col "hadith_id" Integer; col "topic_id" Integer];
     constraints :=
       [ForeignKeyConstraint ["hadith_id"] "hadiths" ["id"];
        ForeignKeyConstraint ["topic_id"] "topics" ["id"]] |}.

Definition verse_topics : table :=
  {| tbl_name := "verse_topics";
     columns := [col "verse_id" Integer; col "topic_id" Integer];
     constraints :=
       [ForeignKeyConstraint ["topic_id"] "topics" ["id"];
        ForeignKeyConstraint ["verse_id"] "verses" ["id"]] |}.

(** The tables of [upgrade], in the order it creates them. *)
Definition created : list table :=
  [hadith_collections; narrators; surahs; topics; hadiths; verses;
   hadith_narrators; hadith_topics; verse_topics].

(** [upgrade()] and [downgrade()], as the operations they issue. *)
Definition upgrade : list operation := map create_table created.

Definition downgrade : list operation :=
  [drop_table "verse_topics"; drop_table "hadith_topics";
   drop_table "hadith_narrators"; drop_table "verses"; drop_table "hadiths";
   drop_table "topics"; drop_table "surahs"; drop_table "narrators";
   drop_table "hadith_collections"].

(** *** What the database does with an operation

    A schema is the list of its tables, in the order of their creation.
    [CREATE TABLE] is refused for a name in use and for a foreign key that
    does not point to the primary key or a unique constraint of a table
    (an existing one, or the new one itself) with columns of the same
    types; [DROP TABLE] is refused for a name not in use and for a table
    that another table references. *)

Inductive db_error :=
| DuplicateTable (name : string)
| UndefinedTable (name : string)
| InvalidForeignKey (name : string)
| DependentObjectsStillExist (name : string).

Definition find_table (name : string) (schema : list table) : option table :=
  find (fun t => bool_decide (tbl_name t = name)) schema.

Definition type_of (t : table) (name : string) : option column_type :=
  col_type <$> find (fun c => bool_decide (col_name c = name)) (columns t).

Definition is_key (t : table) (cols : list string) : bool :=
  existsb (fun c =>
             match c with
             | PrimaryKeyConstraint k | UniqueConstraint k =>
                 bool_decide (k = cols)
             | ForeignKeyConstraint _ _ _ => false
             end) (constraints t).

Definition foreign_key_ok (schema : list table) (t : table)
    (c : table_constraint) : bool :=
  match c with
  | ForeignKeyConstraint cols ref_table ref_cols =>
      match find_table ref_table (schema ++ [t]) with
      | Some target =>
          is_key target ref_cols
          && bool_decide (type_of t <$> cols = type_of target <$> ref_cols)
          && forallb (fun name => bool_decide (is_Some (type_of t name))) cols
      | None => false
      end
  | _ => true
  end.

Definition references (name : string) (t : table) : bool :=
  existsb (fun c =>
             match c with
             | ForeignKeyConstraint _ ref_table _ =>
                 bool_decide (ref_table = name)
             | _ => false
             end) (constraints t).

Definition apply_operation (o : operation) (schema : list table)
  : db_error + list table :=
  match o with
  | create_table t =>
      if bool_decide (is_Some (find_table (tbl_name t) schema))
      then inl (DuplicateTable (tbl_name t))
      else if forallb (foreign_key_ok schema t) (constraints t)
           then inr (schema ++ [t])
           else inl (InvalidForeignKey (tbl_name t))
  | drop_table name =>
      match find_table name schema with
      | None => inl (UndefinedTable name)
      | Some _ =>
          if existsb (fun t => negb (bool_decide (tbl_name t = name))
                               && references name t) schema
          then inl (DependentObjectsStillExist name)
          else inr (filter (fun t => tbl_name t <> name) schema)
      end
  end.

(** A migration: its operations in order, stopping at the first refusal. *)
Fixpoint run (ops : list operation) (schema : list table)
  : db_error + list table :=
  match ops with
  | [] => inr schema
  | o :: rest =>
      match apply_operation o schema with
      | inl e => inl e
      | inr schema' => run rest schema'
      end
  end.

(** The names that the migration uses. *)
Definition created_names : list string := map tbl_name created.

(** No table of [schema] has one of the names, or points to one. *)
Definition apart (schema : list table) : Prop :=
  Forall (fun t => (tbl_name t ∉ created_names)
                   /\ Forall (fun name => references name t = false)
                        created_names) schema.

(** The foreign keys of [t] all point to tables of the migration. *)
Definition points_inside (t : table) : bool :=
  forallb (fun c =>
             match c with
             | ForeignKeyConstraint _ ref_table _ =>
                 bool_decide (ref_table ∈ created_names)
             | _ => true
             end) (constraints t).

End Migration.

(** ** Counting and sample frameworks *)

(** The number of [requests.get] calls in a trace. *)
Definition requests_in (tr : list event) : nat :=
  length (omap (fun ev => match ev with Get url _ => Some url | _ => None end)
            tr).

(** The documents handed to the vector store in a trace. *)
Definition indexed_in (tr : list event) : list (list (list N)) :=
  omap (fun ev => match ev with CreateIndex d => Some d | _ => None end) tr.

(** A delay that [time.sleep] takes: not negative (it raises [ValueError]
    for a negative one) and at most a day, far inside the range of its
    clock. *)
Definition sleepable (seconds : Z) : Prop := 0 <= seconds <= 86400.

(** The world after [n] calls to [/api/hadiths]. *)
Fixpoint pop_hadith_n (n : nat) (w : world) : world :=
  match n with
  | O => w
  | S n' => pop_hadith_n n' (pop_hadith w)
  end.

(** [k] failed attempts at a page, each followed by the retry delay. *)
Fixpoint failed_attempts (request : event) (retry_delay : Z) (k : nat)
  : list event :=
  match k with
  | O => []
  | S k' => request :: Sleep retry_delay :: failed_attempts request retry_delay k'
  end.

(** The world after [n] calls to the Quran service. *)
Fixpoint pop_quran_n (n : nat) (w : world) : world :=
  match n with
  | O => w
  | S n' => pop_quran_n n' (pop_quran w)
  end.

(** The documents of the surahs [surahs] when their payloads are [bodies],
    in that order. *)
Fixpoint paired_all (surahs : list nat) (bodies : list quran_body)
  : list (list N) :=
  match surahs, bodies with
  | surah :: surahs', body :: bodies' =>
      paired surah (arabic_ayahs body) (english_ayahs body)
      ++ paired_all surahs' bodies'
  | _, _ => []
  end.

(** The events of the attempts at one page of the helper. *)
Definition page_event (collection api_key : list N) (retry_delay : Z)
    (page : nat) (ev : event) : Prop :=
  ev = Get FetchAll.public_url (FetchAll.page_params api_key collection page)
  \/ ev = Sleep retry_delay \/ ev = Sleep 1.

(** The events of the helper from [page] on: requests to the public
    endpoint for a page of the collection, and delays. *)
Definition helper_event (collection api_key : list N) (page : nat)
    (ev : event) : Prop :=
  match ev with
  | Get url params =>
      url = FetchAll.public_url
      /\ exists p, (page <= p)%nat
                   /\ params = FetchAll.page_params api_key collection p
  | Sleep _ => True
  | CreateIndex _ => False
  end.

(** What the attempts at a page come to: they do not raise; they return
    the documents, end without result, or go on to the next page with
    more documents; their events are [events]; they ask at most [n]
    times. *)
Definition page_attempts_ok (documents : list (list N)) (page n : nat)
    (events : event -> Prop)
    (x : result FetchAll.leave * list event * world) : Prop :=
  (exists l,
      fst (fst x) = Ok l
      /\ (l = FetchAll.Return documents \/ l = FetchAll.Continue
          \/ exists more, l = FetchAll.Break (documents ++ more) (S page)))
  /\ Forall events (snd (fst x))
  /\ (requests_in (snd (fst x)) <= n)%nat.

(** How a fetch of the Quran may end: with documents that extend the ones
    it started with, or with the [IndexError] of a short translation. *)
Definition quran_outcome_ok (documents : list (list N))
    (r : result (list (list N))) : Prop :=
  match r with
  | Ok d => exists more, d = documents ++ more
  | Raise e => exn_class_of e = IndexError
  end.

(** The events of the attempts at a surah. *)
Definition surah_event (surah : nat) (ev : event) : Prop :=
  ev = Get (Quran.surah_url surah) ∅ \/ ev = Sleep Quran.retry_delay.

(** A framework in which every constructor works and the chain answers
    with a long text. *)
Definition working : Startup.framework :=
  {| Startup.new_llm := None;
     Startup.from_chain_type := fun _ => Ok talkative |}.

(** A chain that raises on every question. *)
Definition broken : Answering.chain :=
  fun _ => Answering.Raises (mk_exn OtherException (lit "rate limit")).

(** An existing table, unrelated to the migration. *)
Definition users_table : Migration.table :=
  {| Migration.tbl_name := "users";
     Migration.columns := [Migration.id_column];
     Migration.constraints := [Migration.PrimaryKeyConstraint ["id"]] |}.

(** * Properties *)

(** ** Strings *)

Section StripFacts.

Lemma lstrip_all_space (s : list N) : all_space s = true -> lstrip s = [].
Proof.
  induction s as [|c s IH]; simpl; [reflexivity|].
  intros H. apply andb_prop in H as [Hc Hs]. rewrite Hc. auto.
Qed.

Lemma strip_all_space (s : list N) : all_space s = true -> strip s = [].
Proof.
  intros H. unfold strip, rstrip. rewrite (lstrip_all_space s H). reflexivity.
Qed.

Lemma lstrip_nil_all_space (s : list N) : lstrip s = [] -> all_space s = true.
Proof.
  induction s as [|c s IH]; simpl; [reflexivity|].
  destruct (is_space c); [auto | discriminate].
Qed.

(** [strip s] is empty exactly for the strings made of whitespace. *)
Lemma strip_nil_iff (s : list N) : strip s = [] <-> all_space s = true.
Proof.
  split; [|apply strip_all_space].
  unfold strip, rstrip. intros H.
  assert (Hr : lstrip (rev (lstrip s)) = []).
  { apply (f_equal (@rev N)) in H. rewrite rev_involutive in H. exact H. }
  destruct (lstrip s) as [|c t] eqn:E; [now apply lstrip_nil_all_space|].
  exfalso.
  assert (Hc : is_space c = false).
  { destruct s as [|a s]; [discriminate|]. revert E. clear.
    revert a. induction s as [|b s IH]; intros a; simpl.
    - destruct (is_space a) eqn:Ea; [discriminate|]. intros [= <- _]. exact Ea.
    - destruct (is_space a) eqn:Ea.
      + intros E. apply (IH b). exact E.
      + intros [= <- _]. exact Ea. }
  apply lstrip_nil_all_space in Hr. unfold all_space in Hr.
  rewrite forallb_forall in Hr.
  specialize (Hr c). rewrite Hc in Hr.
  assert (Hin : In c (rev (c :: t))) by (rewrite <- in_rev; left; reflexivity).
  specialize (Hr Hin). discriminate.
Qed.

Lemma strip_length_le (s : list N) : (length (strip s) <= length s)%nat.
Proof.
  assert (L : forall t : list N, (length (lstrip t) <= length t)%nat).
  { induction t as [|c t IH]; simpl; [lia|].
    destruct (is_space c); simpl; lia. }
  unfold strip, rstrip. rewrite length_rev.
  etransitivity; [apply L|]. rewrite length_rev. apply L.
Qed.

End StripFacts.

(** ** The result dictionaries *)

Section Results.
Import Answering.

Lemma error_result_status (msg : list N) :
  error_result msg !! "status" = Some (lit "error").
Proof. unfold error_result. by rewrite lookup_insert_ne, lookup_singleton_eq. Qed.

Lemma error_result_error (msg : list N) : error_result msg !! "error" = Some msg.
Proof. unfold error_result. by rewrite lookup_insert_eq. Qed.

Lemma success_result_status (answer : list N) :
  success_result answer !! "status" = Some (lit "success").
Proof.
  unfold success_result. by rewrite lookup_insert_ne, lookup_singleton_eq.
Qed.

Lemma success_result_answer (answer : list N) :
  success_result answer !! "answer" = Some answer.
Proof. unfold success_result. by rewrite lookup_insert_eq. Qed.

Lemma success_not_error (answer msg : list N) :
  success_result answer <> error_result msg.
Proof.
  intros H. apply (f_equal (fun d => d !! "status")) in H.
  rewrite success_result_status, error_result_status in H. discriminate.
Qed.

Lemma error_result_well_formed (msg : list N) : well_formed (error_result msg).
Proof.
  right. rewrite error_result_status, error_result_error. eauto.
Qed.

Lemma success_result_well_formed (answer : list N) :
  well_formed (success_result answer).
Proof.
  left. rewrite success_result_status, success_result_answer. eauto.
Qed.

Lemma validate_answer_well_formed (answer : pyobj) (d : gmap string (list N)) :
  validate_answer answer = Ok d -> well_formed d.
Proof.
  destruct answer as [s| |[] ty]; simpl.
  - destruct (negb (truthy s) || (len (strip s) <? 10)); intros [= <-];
      auto using error_result_well_formed, success_result_well_formed.
  - intros [= <-]. apply error_result_well_formed.
  - discriminate.
  - intros [= <-]. apply error_result_well_formed.
Qed.

End Results.

(** ** [answer_question] *)

Section AnswerQuestion.
Import Answering.

(** C8. Without a QA chain (the service never became ready) every
    question, empty or not, gets the error result that says the chain is
    not initialized, and nothing is invoked. *)
Theorem answer_uninitialized (question : list N) :
  answer_question None question = (error_result msg_uninitialized, [])
  /\ error_result msg_uninitialized !! "status" = Some (lit "error")
  /\ error_result msg_uninitialized !! "error" = Some msg_uninitialized.
Proof.
  split; [reflexivity|]. split.
  - apply error_result_status.
  - apply error_result_error.
Qed.

(** C7. On a ready service, a question that is empty or made of
    whitespace only gets an error result, and the chain (retrieval and
    generation) is not invoked. *)
Theorem answer_blank_question (invoke : chain) (question : list N) :
  all_space question = true ->
  answer_question (Some invoke) question
    = (error_result msg_invalid_question, [])
  /\ fst (answer_question (Some invoke) question) !! "status"
     = Some (lit "error")
  /\ snd (answer_question (Some invoke) question) = [].
Proof.
  intros H. unfold answer_question.
  rewrite (strip_all_space question H). simpl.
  split; [reflexivity|]. split; [apply error_result_status | reflexivity].
Qed.

Lemma answer_blank_question_witness :
  all_space (lit "   ") = true
  /\ all_space [] = true
  /\ answer_question (Some talkative) (lit "   ")
     = (error_result msg_invalid_question, [])
  /\ answer_question (Some talkative) []
     = (error_result msg_invalid_question, []).
Proof.
  split; [reflexivity|]. split; [reflexivity|]. split.
  - apply (answer_blank_question talkative (lit "   ")). reflexivity.
  - apply (answer_blank_question talkative []). reflexivity.
Defined.

(** A question with something in it reaches the chain, once. *)
Lemma answer_invokes_once (invoke : chain) (question : list N) :
  all_space question = false ->
  snd (answer_question (Some invoke) question) = [question].
Proof.
  intros H. unfold answer_question.
  destruct (strip question) as [|c t] eqn:E.
  - apply strip_nil_iff in E. congruence.
  - reflexivity.
Qed.

(** What [answer_question] gives when the chain returns the text [s]. *)
Lemma answer_of_text (invoke : chain) (question : list N) (r : response)
    (s : list N) :
  all_space question = false ->
  invoke question = Returns r ->
  generated r s ->
  fst (answer_question (Some invoke) question)
  = if negb (truthy s) || (len (strip s) <? 10)
    then error_result msg_invalid_answer else success_result s.
Proof.
  intros Hq Hi Hr. unfold answer_question.
  destruct (strip question) as [|c t] eqn:E.
  { apply strip_nil_iff in E. congruence. }
  simpl. unfold invoke_chain. rewrite Hi. simpl.
  unfold generated in Hr. rewrite Hr. simpl.
  destruct (negb (truthy s) || (len (strip s) <? 10)); reflexivity.
Qed.

Lemma short_strip_of_empty (s : list N) :
  negb (truthy s) || (len (strip s) <? 10) = (len (strip s) <? 10).
Proof.
  destruct s as [|c s]; [reflexivity|]. reflexivity.
Qed.

(** C9, as the code has it. When the chain returns the text [s], the
    result is the success result carrying [s] unchanged exactly when [s]
    with its leading and trailing whitespace removed has at least 10
    characters; otherwise it is the invalid-generation error result. *)
Theorem answer_validates_stripped_length
    (invoke : chain) (question : list N) (r : response) (s : list N) :
  all_space question = false ->
  invoke question = Returns r ->
  generated r s ->
  (10 <= len (strip s) ->
     fst (answer_question (Some invoke) question) = success_result s)
  /\ (len (strip s) < 10 ->
     fst (answer_question (Some invoke) question)
       = error_result msg_invalid_answer)
  /\ (fst (answer_question (Some invoke) question) = success_result s
      <-> 10 <= len (strip s)).
Proof.
  intros Hq Hi Hr. rewrite (answer_of_text invoke question r s Hq Hi Hr).
  rewrite short_strip_of_empty.
  destruct (Z.ltb_spec (len (strip s)) 10) as [Hlt|Hge].
  - split; [lia|]. split; [reflexivity|]. split; [|lia].
    intros H. symmetry in H. now apply success_not_error in H.
  - split; [reflexivity|]. split; [lia|]. split; [lia | reflexivity].
Qed.

Lemma answer_validates_stripped_length_witness :
  fst (answer_question (Some (says (lit "Patience is a virtue.")))
         (lit "What is patience?"))
    = success_result (lit "Patience is a virtue.")
  /\ fst (answer_question (Some (says (lit "ok"))) (lit "What is patience?"))
    = error_result msg_invalid_answer.
Proof.
  split.
  - apply (answer_validates_stripped_length
             (says (lit "Patience is a virtue.")) (lit "What is patience?")
             (RDict (Some (PStr (lit "Patience is a virtue."))))
             (lit "Patience is a virtue."));
      [reflexivity|reflexivity|reflexivity|].
    vm_compute. discriminate.
  - apply (answer_validates_stripped_length
             (says (lit "ok")) (lit "What is patience?")
             (RDict (Some (PStr (lit "ok")))) (lit "ok"));
      [reflexivity|reflexivity|reflexivity|]. vm_compute. reflexivity.
Defined.

(** C9, as stated, fails: an output of twelve characters, "ok" followed by
    ten spaces, is non-empty and at least 10 characters long, and the
    result is the error result. *)
Lemma answer_length_counterexample :
  lit "ok          " <> [] /\ 10 <= len (lit "ok          ")
  /\ fst (answer_question (Some (says (lit "ok          ")))
            (lit "What is patience?"))
     = error_result msg_invalid_answer
  /\ fst (answer_question (Some (says (lit "ok          ")))
            (lit "What is patience?"))
     <> success_result (lit "ok          ").
Proof.
  assert (E : fst (answer_question (Some (says (lit "ok          ")))
                     (lit "What is patience?"))
              = error_result msg_invalid_answer).
  { rewrite (answer_of_text _ _ (RDict (Some (PStr (lit "ok          "))))
               (lit "ok          ")); reflexivity. }
  split; [discriminate|]. split; [vm_compute; discriminate|].
  split; [exact E|]. rewrite E. intros H. symmetry in H.
  now apply success_not_error in H.
Qed.

(** C10. [answer_question] always returns a dictionary, whatever the
    chain does (return anything, or raise): its ["status"] is "success"
    with an ["answer"], or "error" with an ["error"] message. *)
Theorem answer_question_total (qa_chain : option chain) (question : list N) :
  let d := fst (answer_question qa_chain question) in
  (d !! "status" = Some (lit "success") /\ is_Some (d !! "answer"))
  \/ (d !! "status" = Some (lit "error") /\ is_Some (d !! "error")).
Proof.
  simpl. fold (well_formed (fst (answer_question qa_chain question))).
  unfold answer_question. destruct qa_chain as [invoke|]; simpl.
  2: apply error_result_well_formed.
  destruct (negb (truthy (strip question))); simpl.
  { apply error_result_well_formed. }
  unfold invoke_chain. destruct (invoke question) as [r|e]; simpl.
  2: apply error_result_well_formed.
  destruct (extract_answer r) as [answer|e] eqn:Er; simpl.
  2: apply error_result_well_formed.
  destruct (validate_answer answer) as [d|e] eqn:Ev; simpl.
  - eapply validate_answer_well_formed; eauto.
  - apply error_result_well_formed.
Qed.

(** The error branches, one by one. *)
Lemma answer_chain_raises (invoke : chain) (question : list N) (e : exn) :
  all_space question = false ->
  invoke question = Raises e ->
  answer_question (Some invoke) question
  = (error_result (msg_error e), [question]).
Proof.
  intros Hq Hi. unfold answer_question.
  destruct (strip question) as [|c t] eqn:E.
  { apply strip_nil_iff in E. congruence. }
  simpl. unfold invoke_chain. rewrite Hi. reflexivity.
Qed.

End AnswerQuestion.

(** ** The [chat] handler *)

Section ChatHandler.
Import Answering Http.

Variable str_HTTPException : Z -> option (list N) -> list N.

(** A success result is returned as the body [{"answer": ...}]. *)
Lemma chat_success (qa_chain : option chain) (question answer : list N) :
  fst (answer_question qa_chain question) = success_result answer ->
  chat str_HTTPException qa_chain question = Ok {[ "answer" := answer ]}.
Proof.
  intros H. unfold chat. rewrite H.
  rewrite decide_True by apply success_result_status.
  unfold getitem. rewrite success_result_answer. reflexivity.
Qed.

(** An error result makes the handler raise [HTTPException(400, ...)]
    inside its own [try]; [except Exception] catches it and raises
    [HTTPException(500, str(e))] instead. *)
Lemma chat_error (qa_chain : option chain) (question msg : list N) :
  fst (answer_question qa_chain question) = error_result msg ->
  chat str_HTTPException qa_chain question
  = Raise (mk_exn
             (HTTPException 500 (Some (str_HTTPException 400 (Some msg))))
             (str_HTTPException 500
                (Some (str_HTTPException 400 (Some msg))))).
Proof.
  intros H. unfold chat. rewrite H.
  rewrite decide_False
    by (rewrite error_result_status; discriminate).
  rewrite error_result_error. reflexivity.
Qed.

(** C1 at two requests whose typed result is an error (a blank question
    on a ready service, any question on a service that is not ready): the
    reply has status 500, not 400, and its detail is the rendering of the
    400 exception rather than the error message. *)
Theorem chat_error_result_gives_500 :
  http_status (chat str_HTTPException (Some talkative) (lit "   ")) = 500
  /\ http_detail (chat str_HTTPException (Some talkative) (lit "   "))
     = Some (str_HTTPException 400 (Some msg_invalid_question))
  /\ http_status (chat str_HTTPException None (lit "What is patience?")) = 500
  /\ http_detail (chat str_HTTPException None (lit "What is patience?"))
     = Some (str_HTTPException 400 (Some msg_uninitialized)).
Proof.
  rewrite (chat_error (Some talkative) (lit "   ") msg_invalid_question)
    by reflexivity.
  rewrite (chat_error None (lit "What is patience?") msg_uninitialized)
    by reflexivity.
  repeat split.
Qed.

(** No request is answered with status 400. *)
Lemma chat_never_400 (qa_chain : option chain) (question : list N) :
  http_status (chat str_HTTPException qa_chain question) <> 400.
Proof.
  unfold chat.
  destruct (decide (fst (answer_question qa_chain question) !! "status"
                    = Some (lit "success"))) as [Hs|Hs]; simpl.
  - unfold getitem.
    destruct (fst (answer_question qa_chain question) !! "answer");
      simpl; discriminate.
  - discriminate.
Qed.

End ChatHandler.

(** ** Traces of the fetch loops *)

Section QuranLoop.
Import Quran.

Lemma pause_before_retry_run (attempt : nat) (w : world) :
  pause_before_retry attempt w = (Ok tt, retry_events attempt, w).
Proof.
  unfold pause_before_retry, retry_events.
  destruct (Z.of_nat attempt <? max_retries - 1); reflexivity.
Qed.

(** The pairing raises nothing but [IndexError], which the handler for
    [RequestException] lets through. *)
Lemma pair_ayahs_raises (surah : nat) (english : list (list N))
    (arabic : list (list N)) (ayah_idx : nat) (documents : list (list N))
    (e : exn) :
  pair_ayahs surah english ayah_idx arabic documents = Raise e ->
  exn_class_of e = IndexError.
Proof.
  revert ayah_idx documents.
  induction arabic as [|a arabic IH]; intros ayah_idx documents; cbn.
  - discriminate.
  - unfold index. destruct (english !! (ayah_idx - 1)%nat); cbn.
    + apply IH.
    + intros [= <-]. reflexivity.
Qed.

(** One attempt for a surah, by the outcome of its request. *)
Lemma surah_attempts_step (surah attempt : nat) (rest : list nat)
    (documents : list (list N)) (w : world) :
  surah_attempts surah (attempt :: rest) documents w
  = match quran_api w 0 with
    | Response status_code json =>
        if status_code =? 200
        then (pair_ayahs surah (english_ayahs json) 1 (arabic_ayahs json)
                documents,
              [Get (surah_url surah) ∅], pop_quran w)
        else after (Get (surah_url surah) ∅ :: retry_events attempt)
               (surah_attempts surah rest documents (pop_quran w))
    | Unreachable _ =>
        after (Get (surah_url surah) ∅ :: retry_events attempt)
          (surah_attempts surah rest documents (pop_quran w))
    end.
Proof.
  cbn [surah_attempts].
  unfold mbind, M_bind, Net.bind, try_catch, get_quran, lift, mret, M_ret,
    Net.ret, after.
  destruct (quran_api w 0) as [status_code json|msg]; cbn.
  - destruct (status_code =? 200); cbn.
    + destruct (pair_ayahs surah (english_ayahs json) 1 (arabic_ayahs json)
                  documents) as [d|e] eqn:E; [reflexivity|].
      apply pair_ayahs_raises in E. unfold is_RequestException.
      rewrite E. reflexivity.
    + rewrite pause_before_retry_run; cbn.
      destruct (surah_attempts surah rest documents (pop_quran w))
        as [[r tr] w']; cbn. rewrite app_nil_r. reflexivity.
  - rewrite pause_before_retry_run; cbn.
    destruct (surah_attempts surah rest documents (pop_quran w))
      as [[r tr] w']; cbn. rewrite app_nil_r. reflexivity.
Qed.

Lemma surah_attempts_nil (surah : nat) (documents : list (list N))
    (w : world) :
  surah_attempts surah [] documents w = (Ok documents, [], w).
Proof. reflexivity. Qed.

End QuranLoop.

Section LoadDataHadith.
Import LoadData.

(** The per-collection request of [load_data], by its outcome. *)
Lemma fetch_collection_run (hadith_api_key collection : list N)
    (documents : list (list N)) (w : world) :
  fetch_collection hadith_api_key collection documents w
  = (match hadith_api w 0 with
     | Response status_code json =>
         if status_code =? 200 then
           match json with
           | Some hadiths =>
               Ok (documents ++ map (hadith_text collection) hadiths)
           | None => Ok documents
           end
         else Ok documents
     | Unreachable msg => Raise (mk_exn RequestException msg)
     end,
     [Get (keyed_url hadith_url hadith_api_key)
          (hadith_params hadith_api_key collection)],
     pop_hadith w).
Proof.
  unfold fetch_collection, mbind, M_bind, Net.bind, get_hadith, mret, M_ret,
    Net.ret.
  destruct (hadith_api w 0) as [status_code json|msg]; cbn; [|reflexivity].
  destruct (status_code =? 200); [destruct json|]; reflexivity.
Qed.

Lemma collection_loop_cons (hadith_api_key collection : list N)
    (rest : list (list N)) (documents : list (list N)) (w : world) :
  collection_loop hadith_api_key (collection :: rest) documents w
  = match fst (fst (fetch_collection hadith_api_key collection documents w))
    with
    | Ok documents' =>
        after [Get (keyed_url hadith_url hadith_api_key)
                   (hadith_params hadith_api_key collection)]
          (collection_loop hadith_api_key rest documents' (pop_hadith w))
    | Raise e =>
        (Raise e,
         [Get (keyed_url hadith_url hadith_api_key)
              (hadith_params hadith_api_key collection)],
         pop_hadith w)
    end.
Proof.
  cbn [collection_loop]. unfold mbind, M_bind, Net.bind at 1.
  rewrite fetch_collection_run. cbn [fst snd].
  destruct (hadith_api w 0) as [status_code json|msg]; [|reflexivity].
  unfold after.
  destruct (status_code =? 200); [destruct json|];
    match goal with
    | |- context [collection_loop ?k ?r ?d ?w] =>
        destruct (collection_loop k r d w) as [[r' tr'] w']
    end; reflexivity.
Qed.

End LoadDataHadith.

Section HelperLoop.
Import FetchAll.

Variables (collection api_key : list N) (max_retries retry_delay : Z).

(** One attempt at a page, by the outcome of its request. *)
Lemma page_attempts_step (attempt : nat) (rest : list nat)
    (documents : list (list N)) (page : nat) (w : world) :
  let request := Get public_url (page_params api_key collection page) in
  let give_up_or_retry :=
    if Z.of_nat attempt <? max_retries - 1
    then after [request; Sleep retry_delay]
           (page_attempts collection api_key max_retries retry_delay rest
              documents page (pop_public w))
    else (Ok (Return documents), [request], pop_public w) in
  page_attempts collection api_key max_retries retry_delay (attempt :: rest)
    documents page w
  = match public_api w 0 with
    | Response status_code hadiths =>
        if status_code =? 200 then
          match hadiths with
          | [] => (Ok (Return documents), [request], pop_public w)
          | _ :: _ =>
              (Ok (Break (documents ++ map (hadith_text collection) hadiths)
                         (S page)),
               [request; Sleep 1], pop_public w)
          end
        else if terminal status_code
             then (Ok (Return documents), [request], pop_public w)
             else give_up_or_retry
    | Unreachable _ => give_up_or_retry
    end.
Proof.
  cbn zeta. cbn [page_attempts].
  cbv beta iota zeta delta
    [mbind M_bind Net.bind try_catch attempt_body retry_or_return get_public
     sleep emit mret M_ret Net.ret after terminal is_Exception fst snd
     answer_of].
  destruct (public_api w 0) as [status_code hadiths|msg];
    cbv beta iota zeta delta [fst snd].
  - destruct (status_code =? 200).
    { destruct hadiths; reflexivity. }
    destruct (status_code =? 401); [reflexivity|].
    destruct (status_code =? 403); [reflexivity|].
    destruct (status_code =? 404); [reflexivity|].
    cbv beta iota zeta delta [orb].
    destruct (Z.of_nat attempt <? max_retries - 1); [|reflexivity].
    destruct (page_attempts collection api_key max_retries retry_delay rest
                documents page (pop_public w)) as [[r tr] w']; reflexivity.
  - destruct (Z.of_nat attempt <? max_retries - 1); [|reflexivity].
    destruct (page_attempts collection api_key max_retries retry_delay rest
                documents page (pop_public w)) as [[r tr] w']; reflexivity.
Qed.

(** One pass of [while True], by how the attempts at the page left. *)
Lemma while_loop_step (fuel : nat) (documents : list (list N)) (page : nat)
    (w : world) :
  while_loop collection api_key max_retries retry_delay (S fuel) documents
    page w
  = match fetch_page collection api_key max_retries retry_delay documents
            page w with
    | (Ok (Return documents'), tr, w') => (Ok (Some documents'), tr, w')
    | (Ok (Break documents' page'), tr, w') =>
        after tr (while_loop collection api_key max_retries retry_delay fuel
                    documents' page' w')
    | (Ok Continue, tr, w') =>
        after tr (while_loop collection api_key max_retries retry_delay fuel
                    documents page w')
    | (Raise e, tr, w') => (Raise e, tr, w')
    end.
Proof.
  cbn [while_loop]. unfold mbind, M_bind, Net.bind at 1.
  destruct (fetch_page collection api_key max_retries retry_delay documents
              page w) as [[[l|e] tr] w']; [|reflexivity].
  unfold after.
  destruct l as [d|d p|]; cbn.
  - rewrite app_nil_r. reflexivity.
  - destruct (while_loop _ _ _ _ fuel d p w') as [[r tr'] w'']; reflexivity.
  - destruct (while_loop _ _ _ _ fuel documents page w') as [[r tr'] w''];
      reflexivity.
Qed.

End HelperLoop.

(** ** The Quran fetch: pairing by index *)

Section Pairing.
Import Quran.

Lemma paired_from_cons (surah k : nat) (a e : list N)
    (arabic english : list (list N)) :
  paired_from surah k (a :: arabic) (e :: english)
  = verse_text surah (S k) a e :: paired_from surah (S k) arabic english.
Proof.
  unfold paired_from. cbn [zip zip_with imap fst snd].
  rewrite Nat.add_0_r. f_equal.
  apply imap_ext. intros i [a' e'] _. cbn. f_equal. lia.
Qed.

Lemma pair_ayahs_aligned (surah : nat) (english arabic : list (list N)) :
  forall (k : nat) (documents : list (list N)),
  (k + length arabic <= length english)%nat ->
  pair_ayahs surah english (S k) arabic documents
  = Ok (documents ++ paired_from surah k arabic (drop k english)).
Proof.
  induction arabic as [|a arabic IH]; intros k documents Hlen;
    cbn [pair_ayahs].
  - unfold paired_from. cbn. rewrite app_nil_r. reflexivity.
  - cbn [length] in Hlen. cbn [Nat.sub]. rewrite Nat.sub_0_r. unfold index.
    destruct (english !! k) as [e|] eqn:Ek.
    2: { apply lookup_ge_None in Ek. lia. }
    cbn [bind_result]. rewrite IH by lia.
    rewrite (drop_S english e k Ek), paired_from_cons.
    rewrite <- app_assoc. reflexivity.
Qed.

Lemma pair_ayahs_short (surah : nat) (english arabic : list (list N)) :
  forall (k : nat) (documents : list (list N)),
  (k <= length english < k + length arabic)%nat ->
  pair_ayahs surah english (S k) arabic documents
  = Raise (mk_exn IndexError (lit "list index out of range")).
Proof.
  induction arabic as [|a arabic IH]; intros k documents Hlen;
    cbn [pair_ayahs].
  - cbn in Hlen. lia.
  - cbn [length] in Hlen. cbn [Nat.sub]. rewrite Nat.sub_0_r. unfold index.
    destruct (english !! k) as [e|] eqn:Ek; cbn [bind_result]; [|reflexivity].
    apply lookup_lt_Some in Ek. apply IH. lia.
Qed.

(** Document [i] of a surah is made of ayah [i] of either edition. *)
Lemma paired_lookup (surah i : nat) (arabic english : list (list N))
    (a e : list N) :
  arabic !! i = Some a -> english !! i = Some e ->
  paired surah arabic english !! i = Some (verse_text surah (S i) a e).
Proof.
  intros Ha He. unfold paired, paired_from.
  rewrite list_lookup_imap.
  assert (Hz : zip arabic english !! i = Some (a, e)).
  { apply lookup_zip_with_Some. exists a, e. auto. }
  rewrite Hz. reflexivity.
Qed.

Lemma paired_length (surah : nat) (arabic english : list (list N)) :
  length (paired surah arabic english)
  = Nat.min (length arabic) (length english).
Proof.
  unfold paired, paired_from. rewrite length_imap.
  apply length_zip_with.
Qed.

Lemma fetch_surah_attempts (surah : nat) (documents : list (list N)) :
  fetch_surah surah documents
  = surah_attempts surah [0; 1; 2]%nat documents.
Proof. reflexivity. Qed.

(** A failed attempt at a surah is followed by the delay of its rank and
    by the next attempt. *)
Lemma surah_attempts_failed (surah attempt : nat) (rest : list nat)
    (documents : list (list N)) (w : world) :
  surah_failed (quran_api w 0) = true ->
  surah_attempts surah (attempt :: rest) documents w
  = after (Get (surah_url surah) ∅ :: retry_events attempt)
      (surah_attempts surah rest documents (pop_quran w)).
Proof.
  intros Hf. rewrite surah_attempts_step.
  destruct (quran_api w 0) as [s j|m]; [|reflexivity].
  cbn in Hf. apply negb_true_iff in Hf. rewrite Hf. reflexivity.
Qed.

(** The fetch of a surah that gets its 200 at the attempt of rank [k],
    after [k] failed attempts: the requests and delays of the failures,
    the request that succeeds, and then the pairing. *)
Lemma fetch_surah_after_failures (surah : nat) (documents : list (list N))
    (w : world) (k : nat) (json : quran_body) :
  (k < 3)%nat ->
  (forall i, (i < k)%nat -> surah_failed (quran_api w i) = true) ->
  quran_api w k = Response 200 json ->
  fetch_surah surah documents w
  = (pair_ayahs surah (english_ayahs json) 1 (arabic_ayahs json) documents,
     failed_attempts (Get (surah_url surah) ∅) retry_delay k
     ++ [Get (surah_url surah) ∅],
     pop_quran_n (S k) w).
Proof.
  intros Hk Hfail Hok. rewrite fetch_surah_attempts.
  destruct k as [|[|[|k]]]; [| | |lia].
  - rewrite surah_attempts_step, Hok. reflexivity.
  - rewrite (surah_attempts_failed surah 0 _ documents w)
      by (apply Hfail; lia).
    rewrite surah_attempts_step.
    change (quran_api (pop_quran w) 0) with (quran_api w 1). rewrite Hok.
    reflexivity.
  - rewrite (surah_attempts_failed surah 0 _ documents w)
      by (apply Hfail; lia).
    rewrite (surah_attempts_failed surah 1 _ documents (pop_quran w))
      by (apply (Hfail 1%nat); lia).
    rewrite surah_attempts_step.
    change (quran_api (pop_quran (pop_quran w)) 0) with (quran_api w 2).
    rewrite Hok. reflexivity.
Qed.

(** An exception of the fetch of a surah leaves the loop over the surahs,
    whatever was fetched before it. *)
Lemma surah_loop_propagates (pre : list nat) :
  forall (surah : nat) (rest : list nat) (documents0 : list (list N))
         (w0 : world) (documents : list (list N)) (tr0 : list event)
         (w : world) (e : exn),
  surah_loop pre documents0 w0 = (Ok documents, tr0, w) ->
  outcome_of (fetch_surah surah documents) w = Raise e ->
  outcome_of (surah_loop (pre ++ surah :: rest) documents0) w0 = Raise e.
Proof.
  induction pre as [|s pre IH];
    intros surah rest documents0 w0 documents tr0 w e Hpre Hraise.
  - cbn in Hpre. injection Hpre as <- _ <-.
    cbn [app surah_loop]. unfold outcome_of in *.
    unfold mbind, M_bind, Net.bind.
    destruct (fetch_surah surah documents0 w0) as [[[d|e'] tr] w'];
      cbn [fst snd] in *; [discriminate | exact Hraise].
  - cbn [app surah_loop] in *. unfold outcome_of in *.
    unfold mbind, M_bind, Net.bind in *.
    destruct (fetch_surah s documents0 w0) as [[[d1|e1] t1] w1];
      [|discriminate].
    destruct (surah_loop pre d1 w1) as [[[d2|e2] t2] w2] eqn:E2;
      [|discriminate].
    injection Hpre as <- _ <-.
    specialize (IH surah rest d1 w1 d2 t2 w2 e E2 Hraise).
    destruct (surah_loop (pre ++ surah :: rest) d1 w1) as [[r t] w'].
    cbn [fst snd] in *. rewrite IH. reflexivity.
Qed.

(** And [load_data], whose handlers print and re-raise, leaves with it. *)
Lemma load_data_reraises (HADITH_API_KEY : option (list N)) (w : world)
    (e : exn) :
  outcome_of (fetch_quran []) w = Raise e ->
  outcome_of (LoadData.load_data HADITH_API_KEY) w = Raise e.
Proof.
  unfold LoadData.load_data, outcome_of, mbind, M_bind, Net.bind.
  destruct (fetch_quran [] w) as [[[d|e'] tr] w']; cbn [fst snd];
    intros H; [discriminate | injection H as ->; reflexivity].
Qed.

(** C4, as the code has it. For a surah that gets its status 200 at the
    first, second or third attempt: if the translation has at least as
    many ayahs as the original, the fetch appends one document per ayah of
    the original, ayah [i] paired with ayah [i] of the translation, and
    raises nothing; if the translation is shorter, reading the missing
    ayah raises [IndexError], which the handler for [RequestException]
    lets through, and [load_data], wherever in its loop the surah comes,
    leaves with that [IndexError]. *)
Theorem fetch_surah_pairs_by_index
    (surah : nat) (documents : list (list N)) (w : world) (k : nat)
    (json : quran_body) :
  (k < 3)%nat ->
  (forall i, (i < k)%nat -> surah_failed (quran_api w i) = true) ->
  quran_api w k = Response 200 json ->
  ((length (arabic_ayahs json) <= length (english_ayahs json))%nat ->
     fetch_surah surah documents w
     = (Ok (documents
            ++ paired surah (arabic_ayahs json) (english_ayahs json)),
        failed_attempts (Get (surah_url surah) ∅) retry_delay k
        ++ [Get (surah_url surah) ∅],
        pop_quran_n (S k) w)
     /\ length (paired surah (arabic_ayahs json) (english_ayahs json))
        = length (arabic_ayahs json)
     /\ forall (i : nat) (a e : list N),
          arabic_ayahs json !! i = Some a ->
          english_ayahs json !! i = Some e ->
          paired surah (arabic_ayahs json) (english_ayahs json) !! i
          = Some (verse_text surah (S i) a e))
  /\ ((length (english_ayahs json) < length (arabic_ayahs json))%nat ->
     fetch_surah surah documents w
     = (Raise (mk_exn IndexError (lit "list index out of range")),
        failed_attempts (Get (surah_url surah) ∅) retry_delay k
        ++ [Get (surah_url surah) ∅],
        pop_quran_n (S k) w)
     /\ forall (HADITH_API_KEY : option (list N)) (w0 : world)
               (pre rest : list nat) (tr0 : list event),
          seq 1 total_surahs = pre ++ surah :: rest ->
          surah_loop pre [] w0 = (Ok documents, tr0, w) ->
          outcome_of (LoadData.load_data HADITH_API_KEY) w0
          = Raise (mk_exn IndexError (lit "list index out of range"))).
Proof.
  intros Hk Hfail Hok.
  rewrite (fetch_surah_after_failures surah documents w k json Hk Hfail Hok).
  split; intros Hlen.
  - rewrite pair_ayahs_aligned by (cbn; lia). rewrite drop_0.
    split; [reflexivity|]. split.
    + rewrite paired_length. lia.
    + intros i a e. apply paired_lookup.
  - rewrite pair_ayahs_short by (cbn; lia). split; [reflexivity|].
    intros HADITH_API_KEY w0 pre rest tr0 Hseq Hpre.
    apply load_data_reraises. unfold fetch_quran. rewrite Hseq.
    apply (surah_loop_propagates pre surah rest [] w0 documents tr0 w _ Hpre).
    unfold outcome_of.
    rewrite (fetch_surah_after_failures surah documents w k json Hk Hfail Hok).
    rewrite pair_ayahs_short by (cbn; lia). reflexivity.
Qed.

End Pairing.

Section PairingExamples.
Import Quran LoadData.

Lemma fetch_surah_pairs_by_index_witness :
  fetch_surah 1 [] (with_quran (script [] (Response 200 two_ayahs)) offline)
  = (Ok [verse_text 1 1 [1576; 1587; 1605]%N (lit "In the name of God");
         verse_text 1 2 [1575; 1604; 1581; 1605; 1583]%N
           (lit "All praise is due")],
     [Get (surah_url 1) ∅],
     pop_quran (with_quran (script [] (Response 200 two_ayahs)) offline))
  /\ fetch_surah 1 []
       (with_quran
          (script [Response 503 no_quran; Unreachable (lit "timeout")]
             (Response 200 two_ayahs)) offline)
     = (Ok [verse_text 1 1 [1576; 1587; 1605]%N (lit "In the name of God");
            verse_text 1 2 [1575; 1604; 1581; 1605; 1583]%N
              (lit "All praise is due")],
        [Get (surah_url 1) ∅; Sleep 2; Get (surah_url 1) ∅; Sleep 2;
         Get (surah_url 1) ∅],
        pop_quran_n 3
          (with_quran
             (script [Response 503 no_quran; Unreachable (lit "timeout")]
                (Response 200 two_ayahs)) offline))
  /\ fetch_surah 1 []
       (with_quran (script [] (Response 200 short_translation)) offline)
     = (Raise (mk_exn IndexError (lit "list index out of range")),
        [Get (surah_url 1) ∅],
        pop_quran
          (with_quran (script [] (Response 200 short_translation)) offline))
  /\ outcome_of (load_data (Some key))
       (with_quran (script [] (Response 200 short_translation)) offline)
     = Raise (mk_exn IndexError (lit "list index out of range")).
Proof.
  split; [|split; [|split]].
  - apply (fetch_surah_pairs_by_index 1 []
             (with_quran (script [] (Response 200 two_ayahs)) offline)
             0 two_ayahs); [lia | intros i Hi; lia | reflexivity | cbn; lia].
  - apply (fetch_surah_pairs_by_index 1 []
             (with_quran
                (script [Response 503 no_quran; Unreachable (lit "timeout")]
                   (Response 200 two_ayahs)) offline)
             2 two_ayahs);
      [lia | intros [|[|i]] Hi; [reflexivity | reflexivity | lia]
       | reflexivity | cbn; lia].
  - apply (fetch_surah_pairs_by_index 1 []
             (with_quran (script [] (Response 200 short_translation)) offline)
             0 short_translation);
      [lia | intros i Hi; lia | reflexivity | cbn; lia].
  - apply (proj2 (proj2 (fetch_surah_pairs_by_index 1 []
                           (with_quran
                              (script [] (Response 200 short_translation))
                              offline)
                           0 short_translation ltac:(lia)
                           ltac:(intros i Hi; lia) eq_refl)
                   ltac:(cbn; lia))
             (Some key)
             (with_quran (script [] (Response 200 short_translation)) offline)
             [] (seq 2 113) []); reflexivity.
Defined.

(** A longer translation: pairing stops with the original edition. *)
Example fetch_surah_long_translation :
  outcome_of (fetch_surah 1 [])
    (with_quran (script [] (Response 200 long_translation)) offline)
  = Ok [verse_text 1 1 [1576; 1587; 1605]%N (lit "In the name of God")].
Proof. reflexivity. Qed.

(** C4, as stated, fails: with two ayahs in the original edition and one
    in the translation, the fetch of the surah does not stop after the
    first pair; it raises [IndexError], and so does [load_data]. *)
Lemma short_translation_raises :
  outcome_of (fetch_surah 1 [])
    (with_quran (script [] (Response 200 short_translation)) offline)
  = Raise (mk_exn IndexError (lit "list index out of range"))
  /\ outcome_of (load_data (Some key))
       (with_quran (script [] (Response 200 short_translation)) offline)
     = Raise (mk_exn IndexError (lit "list index out of range")).
Proof. split; reflexivity. Qed.

End PairingExamples.

(** ** Terminal statuses *)

Section TerminalStatus.
Import Quran LoadData FetchAll.


Lemma range_pos (n : Z) : 0 < n -> seq 0 (Z.to_nat n) = 0%nat :: seq 1 (Z.to_nat n - 1).
Proof.
  intros H. destruct (Z.to_nat n) as [|m] eqn:E; [lia|].
  cbn. rewrite Nat.sub_0_r. reflexivity.
Qed.





End TerminalStatus.

(** ** Retries *)

Section Retries.
Import Quran LoadData FetchAll.

(** The Quran loop: after two failed attempts the third is the last. Its
    success gives the documents of the surah; its failure leaves the
    documents as they were; no fourth request and no further delay. *)
Lemma surah_third_attempt (surah : nat) (documents : list (list N))
    (w : world) :
  surah_failed (quran_api w 0) = true ->
  surah_failed (quran_api w 1) = true ->
  fetch_surah surah documents w
  = (match quran_api w 2 with
     | Response status_code json =>
         if status_code =? 200
         then pair_ayahs surah (english_ayahs json) 1 (arabic_ayahs json)
                documents
         else Ok documents
     | Unreachable _ => Ok documents
     end,
     [Get (surah_url surah) ∅; Sleep 2; Get (surah_url surah) ∅; Sleep 2;
      Get (surah_url surah) ∅],
     pop_quran (pop_quran (pop_quran w))).
Proof.
  intros H0 H1. rewrite fetch_surah_attempts.
  assert (S1 : forall w' rest attempt,
             surah_failed (quran_api w' 0) = true ->
             surah_attempts surah (attempt :: rest) documents w'
             = after (Get (surah_url surah) ∅ :: retry_events attempt)
                 (surah_attempts surah rest documents (pop_quran w'))).
  { intros w' rest attempt Hf. rewrite surah_attempts_step.
    destruct (quran_api w' 0) as [s j|m]; [|reflexivity].
    cbn in Hf. apply negb_true_iff in Hf. rewrite Hf. reflexivity. }
  rewrite (S1 w) by exact H0.
  rewrite (S1 (pop_quran w)) by exact H1.
  rewrite surah_attempts_step.
  change (quran_api (pop_quran (pop_quran w)) 0) with (quran_api w 2).
  destruct (quran_api w 2) as [s j|m]; [destruct (s =? 200)|]; reflexivity.
Qed.

(** The helper, called with a bound of 3: the same for a page. *)
Lemma page_third_attempt (collection api_key : list N) (retry_delay : Z)
    (documents : list (list N)) (page : nat) (w : world) :
  let request := Get public_url (page_params api_key collection page) in
  let tried :=
    [request; Sleep retry_delay; request; Sleep retry_delay; request] in
  page_failed (public_api w 0) = true ->
  page_failed (public_api w 1) = true ->
  fetch_page collection api_key 3 retry_delay documents page w
  = match public_api w 2 with
    | Response status_code hadiths =>
        if status_code =? 200 then
          match hadiths with
          | [] => (Ok (Return documents), tried,
                   pop_public (pop_public (pop_public w)))
          | _ :: _ =>
              (Ok (Break (documents ++ map (hadith_text collection) hadiths)
                         (S page)),
               tried ++ [Sleep 1], pop_public (pop_public (pop_public w)))
          end
        else (Ok (Return documents), tried,
              pop_public (pop_public (pop_public w)))
    | Unreachable _ =>
        (Ok (Return documents), tried, pop_public (pop_public (pop_public w)))
    end.
Proof.
  cbv zeta. intros H0 H1. unfold fetch_page.
  change (seq 0 (Z.to_nat 3)) with [0; 1; 2]%nat.
  assert (S1 : forall w' rest attempt,
             (Z.of_nat attempt <? 3 - 1) = true ->
             page_failed (public_api w' 0) = true ->
             page_attempts collection api_key 3 retry_delay
               (attempt :: rest) documents page w'
             = after [Get public_url (page_params api_key collection page);
                      Sleep retry_delay]
                 (page_attempts collection api_key 3 retry_delay rest
                    documents page (pop_public w'))).
  { intros w' rest attempt Ha Hf. rewrite page_attempts_step. cbv zeta.
    rewrite Ha.
    destruct (public_api w' 0) as [s j|m]; [|reflexivity].
    cbn in Hf. apply andb_prop in Hf as [Hs Ht].
    apply negb_true_iff in Hs, Ht. rewrite Hs, Ht. reflexivity. }
  rewrite (S1 w) by (reflexivity || exact H0).
  rewrite (S1 (pop_public w)) by (reflexivity || exact H1).
  rewrite page_attempts_step. cbv zeta.
  change (public_api (pop_public (pop_public w)) 0) with (public_api w 2).
  change (Z.of_nat 2 <? 3 - 1) with false.
  destruct (public_api w 2) as [s j|m]; [|reflexivity].
  destruct (s =? 200); [destruct j; reflexivity|].
  destruct (terminal s); reflexivity.
Qed.

(** With a bound of 3 the helper returns what it has after three failed
    attempts at a page. *)
Lemma helper_gives_up_after_three (collection api_key : list N)
    (retry_delay : Z) (fuel : nat) (documents : list (list N)) (page : nat)
    (w : world) :
  page_failed (public_api w 0) = true ->
  page_failed (public_api w 1) = true ->
  page_failed (public_api w 2) = true ->
  while_loop collection api_key 3 retry_delay (S fuel) documents page w
  = (Ok (Some documents),
     [Get public_url (page_params api_key collection page);
      Sleep retry_delay;
      Get public_url (page_params api_key collection page);
      Sleep retry_delay;
      Get public_url (page_params api_key collection page)],
     pop_public (pop_public (pop_public w))).
Proof.
  intros H0 H1 H2. rewrite while_loop_step.
  pose proof (page_third_attempt collection api_key retry_delay documents
                page w) as Hp. cbv zeta in Hp. rewrite (Hp H0 H1).
  destruct (public_api w 2) as [s j|m]; [|reflexivity].
  cbn in H2. apply andb_prop in H2 as [Hs _].
  apply negb_true_iff in Hs. rewrite Hs. reflexivity.
Qed.

End Retries.

(** ** Pagination *)

Section Pagination.
Import FetchAll.

Variables (collection api_key : list N) (max_retries retry_delay : Z).
Hypothesis at_least_one_attempt : 0 < max_retries.

(** The helper on a page that comes back with hadiths: they are added,
    and the next pass asks for the next page. *)
Lemma while_loop_full_page (fuel : nat) (documents : list (list N))
    (page : nat) (w : world) (h : gmap string (list N))
    (hs : list (gmap string (list N))) :
  public_api w 0 = Response 200 (h :: hs) ->
  while_loop collection api_key max_retries retry_delay (S fuel) documents
    page w
  = after [Get public_url (page_params api_key collection page); Sleep 1]
      (while_loop collection api_key max_retries retry_delay fuel
         (documents ++ map (hadith_text collection) (h :: hs)) (S page)
         (pop_public w)).
Proof.
  intros Hw. rewrite while_loop_step. unfold fetch_page.
  rewrite (range_pos max_retries at_least_one_attempt), page_attempts_step.
  cbv zeta. rewrite Hw. reflexivity.
Qed.

(** The helper on an empty page: it returns, with that one request. *)
Lemma while_loop_empty_page (fuel : nat) (documents : list (list N))
    (page : nat) (w : world) :
  public_api w 0 = Response 200 [] ->
  while_loop collection api_key max_retries retry_delay (S fuel) documents
    page w
  = (Ok (Some documents),
     [Get public_url (page_params api_key collection page)], pop_public w).
Proof.
  intros Hw. rewrite while_loop_step. unfold fetch_page.
  rewrite (range_pos max_retries at_least_one_attempt), page_attempts_step.
  cbv zeta. rewrite Hw. reflexivity.
Qed.

(** The helper walks the pages: when the service returns the non-empty
    [pages] and then an empty one, it asks for each of them in turn,
    returns all their hadiths, and stops after the empty page. *)
Lemma helper_paginates (pages : list public_body) :
  forall (fuel : nat) (documents : list (list N)) (page : nat) (w : world),
  Forall (fun p => p <> []) pages ->
  (forall (i : nat) (p : public_body),
      pages !! i = Some p -> public_api w i = Response 200 p) ->
  public_api w (length pages) = Response 200 [] ->
  (length pages < fuel)%nat ->
  while_loop collection api_key max_retries retry_delay fuel documents page w
  = (Ok (Some (documents
              ++ concat (map (map (hadith_text collection)) pages))),
     page_events collection api_key (length pages) page
     ++ [Get public_url
           (page_params api_key collection (page + length pages))],
     pop_public_n (S (length pages)) w).
Proof.
  induction pages as [|p pages IH]; intros fuel documents page w Hne Hw He Hf.
  - destruct fuel as [|fuel]; [cbn in Hf; lia|].
    rewrite while_loop_empty_page by exact He.
    cbn. rewrite app_nil_r, Nat.add_0_r. reflexivity.
  - destruct fuel as [|fuel]; [cbn in Hf; lia|].
    inversion Hne as [|? ? Hp Hps]; subst.
    destruct p as [|h hs]; [congruence|].
    rewrite (while_loop_full_page fuel documents page w h hs)
      by (apply (Hw 0%nat); reflexivity).
    rewrite (IH fuel _ (S page) (pop_public w)); try assumption.
    + unfold after. cbn [fst snd length page_events concat map app].
      rewrite <- app_assoc.
      replace (page + S (length pages))%nat with (S page + length pages)%nat
        by lia.
      reflexivity.
    + intros i q Hq. apply (Hw (S i)). exact Hq.
    + cbn in Hf. lia.
Qed.

End Pagination.

Section PaginationExample.
Import FetchAll.

Example helper_three_pages :
  trace (fetch_all_hadiths (lit "sahih-bukhari") key 3 2 5) three_pages
  = [Get public_url (page_params key (lit "sahih-bukhari") 1); Sleep 1;
     Get public_url (page_params key (lit "sahih-bukhari") 2); Sleep 1;
     Get public_url (page_params key (lit "sahih-bukhari") 3)]
  /\ (exists documents,
        outcome_of (fetch_all_hadiths (lit "sahih-bukhari") key 3 2 5)
          three_pages = Ok (Some documents)
        /\ length documents = 3%nat).
Proof.
  split; [reflexivity|]. eexists. split; reflexivity.
Qed.

End PaginationExample.

(** ** What [load_data] asks of the hadith service *)

Section LoadDataRequests.
Import Quran LoadData.

Lemma hadith_requests_app (tr tr' : list event) :
  hadith_requests (tr ++ tr') = hadith_requests tr ++ hadith_requests tr'.
Proof. apply omap_app. Qed.

Lemma surah_url_not_hadith (surah : nat) :
  starts_with hadith_host (surah_url surah) = false.
Proof. reflexivity. Qed.

Lemma keyed_url_hadith (hadith_api_key : list N) :
  starts_with hadith_host (keyed_url hadith_url hadith_api_key) = true.
Proof. reflexivity. Qed.

Lemma bind_trace {A B} (m : M A) (k : A -> M B) (w : world) :
  trace (m ≫= k) w
  = trace m w
    ++ match outcome_of m w with
       | Ok a => trace (k a) (snd (m w))
       | Raise _ => []
       end.
Proof.
  unfold trace, outcome_of, mbind, M_bind, Net.bind.
  destruct (m w) as [[[a|e] tr] w']; cbn.
  - destruct (k a w') as [[r tr'] w'']. reflexivity.
  - rewrite app_nil_r. reflexivity.
Qed.

Lemma retry_events_silent (attempt : nat) :
  hadith_requests (retry_events attempt) = [].
Proof. unfold retry_events. destruct (_ <? _); reflexivity. Qed.

(** The Quran loop sends nothing to the hadith service. *)
Lemma surah_attempts_silent (surah : nat) (attempts : list nat) :
  forall (documents : list (list N)) (w : world),
  hadith_requests (trace (surah_attempts surah attempts documents) w) = [].
Proof.
  induction attempts as [|attempt rest IH]; intros documents w.
  - reflexivity.
  - unfold trace in *. rewrite surah_attempts_step.
    assert (Hr : hadith_requests
                   (snd (fst (after (Get (surah_url surah) ∅
                                     :: retry_events attempt)
                                (surah_attempts surah rest documents
                                   (pop_quran w))))) = []).
    { unfold after. cbn [fst snd].
      change (Get (surah_url surah) ∅ :: retry_events attempt)
        with ([Get (surah_url surah) ∅] ++ retry_events attempt).
      rewrite !hadith_requests_app, retry_events_silent, IH.
      unfold hadith_requests. cbn [omap list_omap].
      rewrite surah_url_not_hadith. reflexivity. }
    destruct (quran_api w 0) as [s j|m]; [destruct (s =? 200)|];
      try exact Hr.
    cbn [fst snd]. unfold hadith_requests. cbn [omap list_omap].
    rewrite surah_url_not_hadith. reflexivity.
Qed.

Lemma surah_loop_silent (surahs : list nat) :
  forall (documents : list (list N)) (w : world),
  hadith_requests (trace (surah_loop surahs documents) w) = [].
Proof.
  induction surahs as [|surah rest IH]; intros documents w.
  - reflexivity.
  - cbn [surah_loop]. rewrite bind_trace, hadith_requests_app.
    unfold fetch_surah. rewrite surah_attempts_silent.
    destruct (outcome_of _ w); [apply IH | reflexivity].
Qed.

(** The hadith loop sends one request per collection it reaches, each
    with the parameters [hadith_params]. *)
Lemma collection_loop_requests (hadith_api_key : list N)
    (cs : list (list N)) :
  forall (documents : list (list N)) (w : world),
  exists n : nat,
    hadith_requests (trace (collection_loop hadith_api_key cs documents) w)
    = map (hadith_params hadith_api_key) (take n cs).
Proof.
  induction cs as [|c cs IH]; intros documents w.
  - exists 0%nat. reflexivity.
  - unfold trace in *. rewrite collection_loop_cons.
    destruct (fst (fst (fetch_collection hadith_api_key c documents w)))
      as [documents'|e].
    + destruct (IH documents' (pop_hadith w)) as [n Hn].
      exists (S n). unfold after. cbn [fst snd].
      change (hadith_requests
                ([Get (keyed_url hadith_url hadith_api_key)
                      (hadith_params hadith_api_key c)]
                 ++ snd (fst (collection_loop hadith_api_key cs documents'
                                (pop_hadith w))))
              = map (hadith_params hadith_api_key) (take (S n) (c :: cs))).
      rewrite hadith_requests_app, Hn. reflexivity.
    + exists 1%nat. reflexivity.
Qed.

Lemma create_index_silent (documents : list (list N)) (w : world) :
  hadith_requests (trace (create_index documents) w) = [].
Proof. reflexivity. Qed.

(** All the requests of [load_data] to the hadith service: the
    [hadith_params] of the first collections, in order. *)
Lemma load_data_requests (HADITH_API_KEY : option (list N)) (w : world) :
  exists n : nat,
    hadith_requests (trace (load_data HADITH_API_KEY) w)
    = map (hadith_params (default [] HADITH_API_KEY)) (take n collections).
Proof.
  unfold load_data. rewrite bind_trace, hadith_requests_app.
  unfold fetch_quran. rewrite surah_loop_silent. cbn [app].
  destruct (outcome_of _ w) as [documents|e]; [|exists 0%nat; reflexivity].
  destruct HADITH_API_KEY as [[|c hadith_api_key]|];
    try (exists 0%nat; reflexivity).
  set (k := c :: hadith_api_key).
  rewrite bind_trace.
  destruct (collection_loop_requests k collections documents
              (snd (surah_loop (seq 1 total_surahs) [] w))) as [n Hn].
  exists n. rewrite hadith_requests_app, Hn.
  destruct (outcome_of _ _) as [documents'|e]; [|apply app_nil_r].
  rewrite bind_trace, hadith_requests_app, create_index_silent.
  destruct (outcome_of _ _); cbn; rewrite app_nil_r; reflexivity.
Qed.

End LoadDataRequests.

(** ** The hadith loop of [load_data] against the helper *)

Section LoadDataAgainstHelper.
Import Quran LoadData FetchAll.

Lemma hadith_params_status (hadith_api_key collection : list N) :
  hadith_params hadith_api_key collection !! "status" = Some (lit "sahih").
Proof.
  unfold hadith_params.
  rewrite lookup_insert_ne by done. rewrite lookup_insert_ne by done.
  apply lookup_singleton_eq.
Qed.

Lemma hadith_params_page (hadith_api_key collection : list N) :
  hadith_params hadith_api_key collection !! "page" = None.
Proof.
  unfold hadith_params.
  rewrite lookup_insert_ne by done. rewrite lookup_insert_ne by done.
  apply lookup_singleton_ne. done.
Qed.

Lemma page_params_status (api_key collection : list N) (page : nat) :
  page_params api_key collection page !! "status" = Some (lit "sahih,hasan").
Proof.
  unfold page_params.
  rewrite lookup_insert_ne by done. rewrite lookup_insert_ne by done.
  apply lookup_insert_eq.
Qed.

(** C2 on [load_data]. Whatever the services do, [load_data] sends at most
    one request per collection to the hadith service, none of them with a
    ['page']; and when every page comes back with a hadith in it, the two
    requests, one for each collection, are all there is: no second page
    is asked for. *)
Theorem load_data_asks_one_page_per_collection :
  (forall (HADITH_API_KEY : option (list N)) (w : world),
      (length (hadith_requests (trace (load_data HADITH_API_KEY) w))
       <= length collections)%nat
      /\ Forall (fun params : gmap string (list N) => params !! "page" = None)
           (hadith_requests (trace (load_data HADITH_API_KEY) w)))
  /\ hadith_requests (trace (load_data (Some key)) generous)
     = [hadith_params key (lit "sahih-bukhari");
        hadith_params key (lit "sahih-muslim")]
  /\ (exists documents,
        outcome_of (load_data (Some key)) generous = Ok (Some documents)
        /\ length documents = 2%nat).
Proof.
  split; [|split].
  - intros HADITH_API_KEY w.
    destruct (load_data_requests HADITH_API_KEY w) as [n ->]. split.
    + rewrite length_map, length_take. lia.
    + apply Forall_forall. intros params Hin.
      apply list_elem_of_fmap in Hin as (c & -> & _).
      apply hadith_params_page.
  - vm_compute. reflexivity.
  - eexists. split; vm_compute; reflexivity.
Qed.

(** C5 on [load_data]. The request for a collection is made once: a
    failed attempt is followed by no delay and no second attempt. When
    the service answers 503 and would answer the next call, the first
    collection is skipped; when it cannot be reached, [load_data] leaves
    with the [RequestException]. *)
Theorem load_data_does_not_retry_collection :
  (forall (hadith_api_key collection : list N) (documents : list (list N))
          (w : world),
      trace (fetch_collection hadith_api_key collection documents) w
      = [Get (keyed_url hadith_url hadith_api_key)
             (hadith_params hadith_api_key collection)])
  /\ collection_loop key collections [] flaky
     = (Ok [LoadData.hadith_text (lit "sahih-muslim") a_hadith],
        [Get (keyed_url hadith_url key)
             (hadith_params key (lit "sahih-bukhari"));
         Get (keyed_url hadith_url key)
             (hadith_params key (lit "sahih-muslim"))],
        pop_hadith (pop_hadith flaky))
  /\ hadith_requests (trace (load_data (Some key)) flaky)
     = [hadith_params key (lit "sahih-bukhari");
        hadith_params key (lit "sahih-muslim")]
  /\ outcome_of (load_data (Some key)) hadith_down
     = Raise (mk_exn RequestException (lit "connection refused")).
Proof.
  split; [|split; [|split]].
  - intros hadith_api_key collection documents w. unfold trace.
    rewrite fetch_collection_run. reflexivity.
  - reflexivity.
  - vm_compute. reflexivity.
  - vm_compute. reflexivity.
Qed.

(** C6 on [load_data]. Every request that [load_data] sends to the hadith
    service has the ['status'] filter "sahih", not "sahih,hasan"; the
    helper [fetch_all_hadiths], which [load_data] does not call, is the
    one that asks for "sahih,hasan". *)
Theorem load_data_asks_for_sahih_only :
  (forall (HADITH_API_KEY : option (list N)) (w : world),
      Forall (fun params : gmap string (list N) =>
                params !! "status" = Some (lit "sahih"))
        (hadith_requests (trace (load_data HADITH_API_KEY) w)))
  /\ lit "sahih" <> lit "sahih,hasan"
  /\ hadith_requests (trace (load_data (Some key)) hadith_down)
     = [hadith_params key (lit "sahih-bukhari")]
  /\ (forall (api_key collection : list N) (page : nat),
        page_params api_key collection page !! "status"
        = Some (lit "sahih,hasan")).
Proof.
  split; [|split; [|split]].
  - intros HADITH_API_KEY w.
    destruct (load_data_requests HADITH_API_KEY w) as [n ->].
    apply Forall_forall. intros params Hin.
    apply list_elem_of_fmap in Hin as (c & -> & _).
    apply hadith_params_status.
  - discriminate.
  - vm_compute. reflexivity.
  - apply page_params_status.
Qed.

End LoadDataAgainstHelper.

(** * Further properties *)

(** ** The handler and the answering service *)

Section AnsweringMore.
Import Answering Http.

Variable str_HTTPException : Z -> option (list N) -> list N.

Lemma answer_question_well_formed (qa_chain : option chain)
    (question : list N) :
  well_formed (fst (answer_question qa_chain question)).
Proof.
  unfold answer_question. destruct qa_chain as [invoke|]; cbn.
  2: apply error_result_well_formed.
  destruct (negb (truthy (strip question))); cbn.
  { apply error_result_well_formed. }
  unfold invoke_chain. destruct (invoke question) as [r|e]; cbn.
  2: apply error_result_well_formed.
  destruct (extract_answer r) as [answer|e] eqn:Er; cbn.
  2: apply error_result_well_formed.
  destruct (validate_answer answer) as [d|e] eqn:Ev; cbn.
  - eapply validate_answer_well_formed; eauto.
  - apply error_result_well_formed.
Qed.

(** X1. The reply of [chat] follows the status of the result: a success
    result is returned as the body with the single key ["answer"] (status
    200, the lookup of ["answer"] never fails); any other result gives
    status 500 with the rendering of the 400 exception as detail. *)
Theorem chat_reply_by_result (qa_chain : option chain) (question : list N) :
  (fst (answer_question qa_chain question) !! "status" = Some (lit "success")
   -> exists answer,
        fst (answer_question qa_chain question) !! "answer" = Some answer
        /\ chat str_HTTPException qa_chain question
           = Ok {[ "answer" := answer ]}
        /\ http_status (chat str_HTTPException qa_chain question) = 200)
  /\ (fst (answer_question qa_chain question) !! "status"
      <> Some (lit "success")
      -> http_status (chat str_HTTPException qa_chain question) = 500
         /\ http_detail (chat str_HTTPException qa_chain question)
            = Some (str_HTTPException 400
                      (fst (answer_question qa_chain question) !! "error"))).
Proof.
  pose proof (answer_question_well_formed qa_chain question) as Hwf.
  unfold chat. split; intros Hs.
  - destruct Hwf as [[_ [answer Ha]]|[He _]];
      [|rewrite Hs in He; vm_compute in He; discriminate].
    exists answer. rewrite decide_True by exact Hs.
    unfold getitem. rewrite Ha. cbn. auto.
  - rewrite decide_False by exact Hs. cbn. auto.
Qed.

End AnsweringMore.

Section AnsweringMoreWitness.
Import Answering Http.

Lemma chat_reply_by_result_witness :
  http_status (chat (fun _ d => default [] d)
                 (Some talkative) (lit "What is patience?")) = 200
  /\ http_status (chat (fun _ d => default [] d) None
                    (lit "What is patience?")) = 500.
Proof.
  split.
  - destruct (proj1 (chat_reply_by_result (fun _ d => default [] d)
                       (Some talkative) (lit "What is patience?")))
      as (answer & _ & _ & H); [reflexivity | exact H].
  - apply (proj2 (chat_reply_by_result (fun _ d => default [] d) None
                    (lit "What is patience?"))).
    vm_compute. discriminate.
Defined.

(** X2. The chain is invoked at most once per question, and with the
    question as it was given (not stripped): once when there is a chain
    and the question is not blank, never otherwise. *)
Theorem answer_invocations (qa_chain : option chain) (question : list N) :
  snd (answer_question qa_chain question)
  = match qa_chain with
    | Some _ => if all_space question then [] else [question]
    | None => []
    end.
Proof.
  destruct qa_chain as [invoke|]; [|reflexivity].
  destruct (all_space question) eqn:E.
  - unfold answer_question. rewrite (strip_all_space question E). reflexivity.
  - apply answer_invokes_once. exact E.
Qed.

(** X3. What the caller is told when the chain misbehaves on a question
    that is not blank: an exception gives "An error occurred: " followed
    by its message; a dict without ['result'] gives the message of the
    [KeyError]; a result that is [None] or another false value gives the
    invalid-answer message; a true value that is not a string gives the
    message of the [AttributeError] on [strip]. *)
Theorem answer_reports_chain_failure (invoke : chain) (question : list N) :
  all_space question = false ->
  match invoke question with
  | Raises e =>
      fst (answer_question (Some invoke) question)
      = error_result (lit "An error occurred: " ++ exn_str e)
  | Returns (RDict None) =>
      fst (answer_question (Some invoke) question)
      = error_result (lit "An error occurred: 'result'")
  | Returns (RDict (Some PNone)) | Returns (RDict (Some (PObj false _))) =>
      fst (answer_question (Some invoke) question)
      = error_result msg_invalid_answer
  | Returns (RDict (Some (PObj true ty))) =>
      fst (answer_question (Some invoke) question)
      = error_result (lit "An error occurred: '" ++ ty
                      ++ lit "' object has no attribute 'strip'")
  | Returns _ => True
  end.
Proof.
  intros Hq. unfold answer_question.
  destruct (strip question) as [|c t] eqn:E.
  { apply strip_nil_iff in E. congruence. }
  cbn. unfold invoke_chain.
  destruct (invoke question) as [[[[s| |[] ty]|]|s]|e]; cbn; try exact I;
    try reflexivity.
Qed.

Lemma answer_reports_chain_failure_witness :
  fst (answer_question (Some broken) (lit "What is patience?"))
  = error_result (lit "An error occurred: rate limit").
Proof.
  apply (answer_reports_chain_failure broken (lit "What is patience?")).
  reflexivity.
Defined.

End AnsweringMoreWitness.

(** ** The paginated helper *)

Section HelperMore.
Import FetchAll.

Variables (collection api_key : list N) (max_retries retry_delay : Z).

Lemma after_nil {A} (x : result A * list event * world) : after [] x = x.
Proof. destruct x as [[r tr] w]. reflexivity. Qed.

Lemma after_after {A} (t1 t2 : list event)
    (x : result A * list event * world) :
  after t1 (after t2 x) = after (t1 ++ t2) x.
Proof. unfold after. cbn. rewrite app_assoc. reflexivity. Qed.

Lemma pop_public_n_end (n : nat) (w : world) :
  pop_public_n n (pop_public w) = pop_public (pop_public_n n w).
Proof.
  revert w. induction n as [|n IH]; intros w; [reflexivity|].
  cbn. rewrite IH. reflexivity.
Qed.

Lemma public_api_pop_n (n i : nat) (w : world) :
  public_api (pop_public_n n w) i = public_api w (n + i).
Proof.
  revert w. induction n as [|n IH]; intros w; [reflexivity|].
  cbn. rewrite IH. reflexivity.
Qed.

Lemma requests_in_app (tr tr' : list event) :
  requests_in (tr ++ tr') = (requests_in tr + requests_in tr')%nat.
Proof. unfold requests_in. rewrite omap_app, length_app. reflexivity. Qed.

(** How the attempts at a page can end, what they emit and how often
    they ask. *)
Lemma page_attempts_shape (attempts : list nat) :
  forall (documents : list (list N)) (page : nat) (w : world),
  page_attempts_ok documents page (length attempts)
    (page_event collection api_key retry_delay page)
    (page_attempts collection api_key max_retries retry_delay attempts
       documents page w).
Proof.
  induction attempts as [|attempt rest IH]; intros documents page w.
  - split; [|split].
    + exists Continue. split; [reflexivity | auto].
    + constructor.
    + cbn. lia.
  - rewrite page_attempts_step. cbv zeta.
    set (request := Get public_url (page_params api_key collection page)).
    assert (Hreq : page_event collection api_key retry_delay page request)
      by (left; reflexivity).
    assert (Hret : page_attempts_ok documents page (length (attempt :: rest))
                     (page_event collection api_key retry_delay page)
                     (Ok (Return documents), [request], pop_public w)).
    { split; [|split]; cbn; [eauto | auto | lia]. }
    assert (Hgive : page_attempts_ok documents page (length (attempt :: rest))
                      (page_event collection api_key retry_delay page)
                      (if Z.of_nat attempt <? max_retries - 1
                       then after [request; Sleep retry_delay]
                              (page_attempts collection api_key max_retries
                                 retry_delay rest documents page
                                 (pop_public w))
                       else (Ok (Return documents), [request],
                             pop_public w))).
    { destruct (Z.of_nat attempt <? max_retries - 1); [|exact Hret].
      destruct (IH documents page (pop_public w)) as (Hl & Hev & Hn).
      unfold after. split; [exact Hl|]. cbn [fst snd]. split.
      - apply Forall_app. split; [|exact Hev].
        constructor; [exact Hreq|].
        constructor; [right; left; reflexivity|]. constructor.
      - rewrite requests_in_app. cbn in *. lia. }
    destruct (public_api w 0) as [status_code hadiths|msg]; [|exact Hgive].
    destruct (status_code =? 200).
    + destruct hadiths as [|h hs]; [exact Hret|].
      split; [|split]; cbn; [eauto 6| |lia].
      constructor; [exact Hreq|].
      constructor; [right; right; reflexivity|]. constructor.
    + destruct (terminal status_code); [exact Hret | exact Hgive].
Qed.

(** X5. A page is asked for at most [max_retries] times, each time with
    the same URL and parameters; the only delays are the retry delay and
    the pause of one second. *)
Theorem page_requests_bounded (documents : list (list N)) (page : nat)
    (w : world) :
  (requests_in
     (trace (fetch_page collection api_key max_retries retry_delay documents
               page) w) <= Z.to_nat max_retries)%nat
  /\ Forall (fun ev =>
               ev = Get public_url (page_params api_key collection page)
               \/ ev = Sleep retry_delay \/ ev = Sleep 1)
       (trace (fetch_page collection api_key max_retries retry_delay
                 documents page) w).
Proof.
  unfold fetch_page.
  destruct (page_attempts_shape (seq 0 (Z.to_nat max_retries)) documents
              page w) as (_ & Hev & Hn).
  rewrite length_seq in Hn. split; [exact Hn | exact Hev].
Qed.

Lemma page_event_helper (page page' : nat) (ev : event) :
  (page <= page')%nat ->
  page_event collection api_key retry_delay page' ev ->
  helper_event collection api_key page ev.
Proof.
  intros Hle [->|[->| ->]]; cbn; eauto.
Qed.

(** X4. Called with a delay that [time.sleep] takes, the helper never
    raises, whatever the service does; what it returns extends the
    documents it started with; and every request it sends goes to the
    public endpoint with the parameters of a page of this collection, from
    the first page on. *)
Theorem helper_never_raises (fuel : nat) :
  sleepable retry_delay ->
  forall (documents : list (list N)) (page : nat) (w : world),
  (exists r,
      outcome_of (while_loop collection api_key max_retries retry_delay fuel
                    documents page) w = Ok r
      /\ forall d, r = Some d -> exists more, d = documents ++ more)
  /\ Forall (helper_event collection api_key page)
       (trace (while_loop collection api_key max_retries retry_delay fuel
                 documents page) w).
Proof.
  intros _. induction fuel as [|fuel IH]; intros documents page w.
  - split; [|constructor]. exists None. split; [reflexivity | discriminate].
  - unfold outcome_of, trace in *. rewrite while_loop_step.
    destruct (page_attempts_shape (seq 0 (Z.to_nat max_retries)) documents
                page w) as ((l & Hl & Hcase) & Hev & _).
    unfold fetch_page.
    destruct (page_attempts collection api_key max_retries retry_delay
                (seq 0 (Z.to_nat max_retries)) documents page w)
      as [[r tr] w'] eqn:E.
    cbn [fst snd] in *. subst r.
    assert (Htr : Forall (helper_event collection api_key page) tr).
    { eapply Forall_impl; [exact Hev|].
      intros ev. apply page_event_helper. lia. }
    destruct Hcase as [->|[->|(more & ->)]].
    + cbn. split; [|exact Htr].
      exists (Some documents). split; [reflexivity|].
      intros d [= <-]. exists []. rewrite app_nil_r. reflexivity.
    + destruct (IH documents page w') as ((r & Hr & Hext) & Hev').
      unfold after. cbn [fst snd]. split; [eauto|].
      apply Forall_app. split; assumption.
    + destruct (IH (documents ++ more) (S page) w')
        as ((r & Hr & Hext) & Hev').
      unfold after. cbn [fst snd]. split.
      * exists r. split; [exact Hr|]. intros d Hd.
        destruct (Hext d Hd) as (more' & ->).
        exists (more ++ more'). rewrite app_assoc. reflexivity.
      * apply Forall_app. split; [exact Htr|].
        eapply Forall_impl; [exact Hev'|].
        intros [url params|s|d]; cbn; auto.
        intros (Hu & p & Hp & Hparams). split; [exact Hu|].
        exists p. split; [lia | exact Hparams].
Qed.

End HelperMore.

Section HelperRetries.
Import FetchAll.

Variables (collection api_key : list N) (max_retries retry_delay : Z).

(** [k] failed attempts in a row, each below the last one of the range,
    are each followed by the retry delay and by the next attempt at the
    same page. *)
Lemma page_attempts_failures (k : nat) :
  forall (a m : nat) (documents : list (list N)) (page : nat) (w : world),
  (forall i, (i < k)%nat -> page_failed (public_api w i) = true) ->
  Z.of_nat (a + k) <= max_retries - 1 ->
  (k <= m)%nat ->
  page_attempts collection api_key max_retries retry_delay (seq a m)
    documents page w
  = after (failed_attempts
             (Get public_url (page_params api_key collection page))
             retry_delay k)
      (page_attempts collection api_key max_retries retry_delay
         (seq (a + k) (m - k)) documents page (pop_public_n k w)).
Proof.
  induction k as [|k IH]; intros a m documents page w Hfail Ha Hm.
  - cbn [failed_attempts pop_public_n]. rewrite after_nil, Nat.add_0_r,
      Nat.sub_0_r. reflexivity.
  - destruct m as [|m]; [lia|]. cbn [seq]. rewrite page_attempts_step.
    cbv zeta.
    assert (Hlt : (Z.of_nat a <? max_retries - 1) = true)
      by (apply Z.ltb_lt; lia).
    rewrite Hlt.
    assert (H0 : page_failed (public_api w 0) = true) by (apply Hfail; lia).
    assert (Hstep :
              match public_api w 0 with
              | Response status_code hadiths =>
                  (status_code =? 200) = false
                  /\ terminal status_code = false
              | Unreachable _ => True
              end).
    { destruct (public_api w 0) as [s j|msg]; [|exact I].
      cbn in H0. apply andb_prop in H0 as [Hs Ht].
      apply negb_true_iff in Hs, Ht. auto. }
    rewrite (IH (S a) m documents page (pop_public w)).
    + cbn [failed_attempts pop_public_n Nat.sub].
      replace (S a + k)%nat with (a + S k)%nat by lia.
      destruct (public_api w 0) as [s j|msg].
      * destruct Hstep as [-> ->]. rewrite after_after. reflexivity.
      * rewrite after_after. reflexivity.
    + intros i Hi. apply (Hfail (S i)). lia.
    + lia.
    + lia.
Qed.

(** X8. With a delay that [time.sleep] takes, retries of a page end with
    the first attempt that succeeds: after [k] failed attempts, with [k]
    below the bound, a 200 with hadiths adds
    their documents and moves to the next page, a 200 with an empty list
    returns the documents; the trace is the [k] failed requests, each
    followed by the retry delay, and the request that succeeded (followed
    by the pause of one second when the helper goes on). *)
Theorem page_succeeds_after_failures (k : nat) (documents : list (list N))
    (page : nat) (w : world) (hadiths : public_body) :
  sleepable retry_delay ->
  Z.of_nat k < max_retries ->
  (forall i, (i < k)%nat -> page_failed (public_api w i) = true) ->
  public_api w k = Response 200 hadiths ->
  fetch_page collection api_key max_retries retry_delay documents page w
  = match hadiths with
    | [] =>
        (Ok (Return documents),
         failed_attempts
           (Get public_url (page_params api_key collection page))
           retry_delay k
         ++ [Get public_url (page_params api_key collection page)],
         pop_public_n (S k) w)
    | _ :: _ =>
        (Ok (Break (documents ++ map (hadith_text collection) hadiths)
                   (S page)),
         failed_attempts
           (Get public_url (page_params api_key collection page))
           retry_delay k
         ++ [Get public_url (page_params api_key collection page); Sleep 1],
         pop_public_n (S k) w)
    end.
Proof.
  intros _ Hk Hfail Hok. unfold fetch_page.
  rewrite (page_attempts_failures k 0 (Z.to_nat max_retries) documents page w
             Hfail) by lia.
  destruct (Z.to_nat max_retries - k)%nat as [|m] eqn:Em; [lia|].
  cbn [seq Nat.add]. rewrite page_attempts_step. cbv zeta.
  rewrite public_api_pop_n, Nat.add_0_r, Hok. cbn [Z.eqb Pos.eqb].
  cbn [pop_public_n]. rewrite pop_public_n_end.
  destruct hadiths; reflexivity.
Qed.

(** X9. With a delay that [time.sleep] takes: when every attempt at a
    page fails, the helper asks exactly
    [max_retries] times, waits the retry delay between two attempts and
    not after the last, and returns the documents it has. *)
Theorem page_gives_up_at_the_bound (fuel : nat) (documents : list (list N))
    (page : nat) (w : world) :
  sleepable retry_delay ->
  0 < max_retries ->
  (forall i, (i < Z.to_nat max_retries)%nat ->
             page_failed (public_api w i) = true) ->
  while_loop collection api_key max_retries retry_delay (S fuel) documents
    page w
  = (Ok (Some documents),
     failed_attempts (Get public_url (page_params api_key collection page))
       retry_delay (Z.to_nat max_retries - 1)
     ++ [Get public_url (page_params api_key collection page)],
     pop_public_n (Z.to_nat max_retries) w).
Proof.
  intros _ Hpos Hfail. rewrite while_loop_step. unfold fetch_page.
  destruct (Z.to_nat max_retries) as [|n] eqn:En; [lia|].
  rewrite (page_attempts_failures n 0 (S n) documents page w)
    by (try lia; intros i Hi; apply Hfail; lia).
  replace (S n - n)%nat with 1%nat by lia. cbn [seq Nat.add].
  rewrite page_attempts_step. cbv zeta.
  assert (Hlast : (Z.of_nat n <? max_retries - 1) = false)
    by (apply Z.ltb_ge; lia).
  rewrite Hlast, public_api_pop_n, Nat.add_0_r.
  specialize (Hfail n ltac:(lia)).
  replace (S n - 1)%nat with n by lia.
  cbn [pop_public_n]. rewrite pop_public_n_end.
  destruct (public_api w n) as [s j|msg]; [|reflexivity].
  cbn in Hfail. apply andb_prop in Hfail as [Hs Ht].
  apply negb_true_iff in Hs, Ht. rewrite Hs, Ht. reflexivity.
Qed.

(** X6. With a bound of zero or less the helper makes no attempt at all:
    however long it runs it sends no request and does not return. *)
Theorem helper_without_attempts (fuel : nat) (documents : list (list N))
    (page : nat) (w : world) :
  max_retries <= 0 ->
  while_loop collection api_key max_retries retry_delay fuel documents page w
  = (Ok None, [], w).
Proof.
  intros Hle. induction fuel as [|fuel IH]; [reflexivity|].
  rewrite while_loop_step. unfold fetch_page.
  replace (Z.to_nat max_retries) with 0%nat by lia.
  cbn [seq page_attempts]. cbn. rewrite IH. reflexivity.
Qed.

End HelperRetries.

Section HelperRetriesWitnesses.
Import FetchAll.

Lemma page_succeeds_after_failures_witness :
  fetch_page (lit "sahih-bukhari") key 3 2 [] 1
    (with_public
       (script [Response 500 []; Unreachable (lit "timeout")]
          (Response 200 [a_public_hadith])) offline)
  = (Ok (Break [hadith_text (lit "sahih-bukhari") a_public_hadith] 2),
     [Get public_url (page_params key (lit "sahih-bukhari") 1); Sleep 2;
      Get public_url (page_params key (lit "sahih-bukhari") 1); Sleep 2;
      Get public_url (page_params key (lit "sahih-bukhari") 1); Sleep 1],
     pop_public_n 3
       (with_public
          (script [Response 500 []; Unreachable (lit "timeout")]
             (Response 200 [a_public_hadith])) offline)).
Proof.
  apply (page_succeeds_after_failures (lit "sahih-bukhari") key 3 2 2 [] 1
           (with_public
              (script [Response 500 []; Unreachable (lit "timeout")]
                 (Response 200 [a_public_hadith])) offline)
           [a_public_hadith]).
  - unfold sleepable. lia.
  - lia.
  - intros [|[|i]] Hi; [reflexivity | reflexivity | lia].
  - reflexivity.
Defined.

Lemma page_gives_up_at_the_bound_witness :
  while_loop (lit "sahih-bukhari") key 3 2 1 [] 1 offline
  = (Ok (Some []),
     [Get public_url (page_params key (lit "sahih-bukhari") 1); Sleep 2;
      Get public_url (page_params key (lit "sahih-bukhari") 1); Sleep 2;
      Get public_url (page_params key (lit "sahih-bukhari") 1)],
     pop_public_n 3 offline).
Proof.
  apply (page_gives_up_at_the_bound (lit "sahih-bukhari") key 3 2 0 [] 1
           offline).
  - unfold sleepable. lia.
  - lia.
  - intros i _. reflexivity.
Defined.

Lemma helper_never_raises_witness :
  exists r,
    outcome_of (while_loop (lit "sahih-bukhari") key 3 2 5 [] 1) offline
    = Ok r
    /\ forall d, r = Some d -> exists more, d = [] ++ more.
Proof.
  apply (helper_never_raises (lit "sahih-bukhari") key 3 2 5).
  unfold sleepable. lia.
Defined.

Lemma helper_without_attempts_witness :
  while_loop (lit "sahih-bukhari") key 0 2 1000 [] 1 generous
  = (Ok None, [], generous).
Proof.
  apply (helper_without_attempts (lit "sahih-bukhari") key 0 2 1000 [] 1
           generous). lia.
Defined.

(** X7. The helper walks the pages of a collection: when the service
    returns the non-empty [pages] and then an empty page, it asks for
    each page in turn, one second apart, stops after the empty one, and
    returns the hadiths of all the pages in order. *)
Theorem helper_walks_the_pages (collection api_key : list N)
    (max_retries retry_delay : Z) (pages : list public_body) (fuel : nat)
    (documents : list (list N)) (page : nat) (w : world) :
  0 < max_retries ->
  Forall (fun p => p <> []) pages ->
  (forall (i : nat) (p : public_body),
      pages !! i = Some p -> public_api w i = Response 200 p) ->
  public_api w (length pages) = Response 200 [] ->
  (length pages < fuel)%nat ->
  while_loop collection api_key max_retries retry_delay fuel documents page w
  = (Ok (Some (documents
              ++ concat (map (map (hadith_text collection)) pages))),
     page_events collection api_key (length pages) page
     ++ [Get public_url
           (page_params api_key collection (page + length pages))],
     pop_public_n (S (length pages)) w).
Proof.
  intros Hpos. apply helper_paginates. exact Hpos.
Qed.

Lemma helper_walks_the_pages_witness :
  while_loop (lit "sahih-bukhari") key 3 2 5 [] 1 three_pages
  = (Ok (Some [hadith_text (lit "sahih-bukhari") a_public_hadith;
               hadith_text (lit "sahih-bukhari") a_public_hadith;
               hadith_text (lit "sahih-bukhari") a_public_hadith]),
     [Get public_url (page_params key (lit "sahih-bukhari") 1); Sleep 1;
      Get public_url (page_params key (lit "sahih-bukhari") 2); Sleep 1;
      Get public_url (page_params key (lit "sahih-bukhari") 3)],
     pop_public_n 3 three_pages).
Proof.
  apply (helper_walks_the_pages (lit "sahih-bukhari") key 3 2
           [[a_public_hadith; a_public_hadith]; [a_public_hadith]] 5 [] 1
           three_pages).
  - lia.
  - repeat constructor; discriminate.
  - intros [|[|i]] p Hp; cbn in Hp; try discriminate;
      injection Hp as <-; reflexivity.
  - reflexivity.
  - cbn. lia.
Defined.

End HelperRetriesWitnesses.

(** ** The Quran loop *)

Section QuranMore.
Import Quran.

Lemma pair_ayahs_extends (surah : nat) (english arabic : list (list N)) :
  forall (ayah_idx : nat) (documents d : list (list N)),
  pair_ayahs surah english ayah_idx arabic documents = Ok d ->
  exists more, d = documents ++ more.
Proof.
  induction arabic as [|a arabic IH]; intros ayah_idx documents d;
    cbn [pair_ayahs].
  - intros [= <-]. exists []. rewrite app_nil_r. reflexivity.
  - unfold index. destruct (english !! (ayah_idx - 1)%nat) as [e|];
      cbn [bind_result]; [|discriminate].
    intros H. apply IH in H as (more & ->).
    eexists. rewrite <- app_assoc. reflexivity.
Qed.

Lemma pair_ayahs_outcome (surah : nat) (english arabic : list (list N))
    (documents : list (list N)) :
  quran_outcome_ok documents (pair_ayahs surah english 1 arabic documents).
Proof.
  destruct (pair_ayahs surah english 1 arabic documents) as [d|e] eqn:E.
  - eapply pair_ayahs_extends. exact E.
  - eapply pair_ayahs_raises. exact E.
Qed.

Lemma retry_events_requests (attempt : nat) :
  requests_in (retry_events attempt) = 0%nat
  /\ forall surah, Forall (surah_event surah) (retry_events attempt).
Proof.
  unfold retry_events. destruct (_ <? _); split; try reflexivity;
    intros surah.
  - constructor; [right; reflexivity | constructor].
  - constructor.
Qed.

(** The attempts at a surah: how they end, what they emit, how often they
    ask, and that they leave the settings of the world alone. *)
Lemma surah_attempts_shape (surah : nat) (attempts : list nat) :
  forall (documents : list (list N)) (w : world),
  quran_outcome_ok documents
    (outcome_of (surah_attempts surah attempts documents) w)
  /\ Forall (surah_event surah)
       (trace (surah_attempts surah attempts documents) w)
  /\ (requests_in (trace (surah_attempts surah attempts documents) w)
      <= length attempts)%nat
  /\ (attempts <> [] ->
      1 <= requests_in (trace (surah_attempts surah attempts documents) w))%nat
  /\ index_error (snd (surah_attempts surah attempts documents w))
     = index_error w
  /\ hadith_api (snd (surah_attempts surah attempts documents w))
     = hadith_api w.
Proof.
  induction attempts as [|attempt rest IH]; intros documents w.
  - cbn. split; [exists []; symmetry; apply app_nil_r|].
    split; [constructor|]. repeat split; try lia. congruence.
  - unfold outcome_of, trace in *. rewrite surah_attempts_step.
    destruct (retry_events_requests attempt) as [Hr0 Hrev].
    assert (Hnext :
              let x := after (Get (surah_url surah) ∅ :: retry_events attempt)
                         (surah_attempts surah rest documents (pop_quran w))
              in quran_outcome_ok documents (fst (fst x))
                 /\ Forall (surah_event surah) (snd (fst x))
                 /\ (requests_in (snd (fst x)) <= length (attempt :: rest))%nat
                 /\ (attempt :: rest <> [] ->
                     1 <= requests_in (snd (fst x)))%nat
                 /\ index_error (snd x) = index_error w
                 /\ hadith_api (snd x) = hadith_api w).
    { cbv zeta. unfold after. cbn [fst snd].
      destruct (IH documents (pop_quran w)) as (Ho & Hev & Hn & _ & Hi & Hh).
      change (Get (surah_url surah) ∅ :: retry_events attempt)
        with ([Get (surah_url surah) ∅] ++ retry_events attempt).
      rewrite !requests_in_app, Hr0. cbn [length].
      split; [exact Ho|]. split.
      - apply Forall_app. split; [|exact Hev].
        apply Forall_app. split; [|apply Hrev].
        constructor; [left; reflexivity | constructor].
      - change (requests_in [Get (surah_url surah) ∅]) with 1%nat.
        repeat split; try lia; assumption. }
    cbv zeta in Hnext.
    destruct (quran_api w 0) as [s j|m]; [|exact Hnext].
    destruct (s =? 200); [|exact Hnext].
    cbn [fst snd length].
    split; [apply pair_ayahs_outcome|].
    split; [constructor; [left; reflexivity | constructor]|].
    change (requests_in [Get (surah_url surah) ∅]) with 1%nat.
    repeat split; lia.
Qed.

(** X10. A surah is asked for at least once and at most three times, at
    its own URL, with no other delay than the 2 seconds between attempts;
    and when all three attempts fail (any status but 200, or no
    response), the fetch of the surah raises nothing and leaves the
    documents as they were, after three requests and two delays. *)
Theorem surah_requests_bounded (surah : nat) (documents : list (list N))
    (w : world) :
  (1 <= requests_in (trace (fetch_surah surah documents) w) <= 3)%nat
  /\ Forall (fun ev => ev = Get (surah_url surah) ∅ \/ ev = Sleep 2)
       (trace (fetch_surah surah documents) w)
  /\ ((forall i, (i < 3)%nat -> surah_failed (quran_api w i) = true) ->
      fetch_surah surah documents w
      = (Ok documents,
         [Get (surah_url surah) ∅; Sleep 2; Get (surah_url surah) ∅; Sleep 2;
          Get (surah_url surah) ∅],
         pop_quran_n 3 w)).
Proof.
  split; [|split].
  - rewrite fetch_surah_attempts.
    destruct (surah_attempts_shape surah [0; 1; 2]%nat documents w)
      as (_ & _ & Hn & H1 & _).
    cbn [length] in Hn. specialize (H1 ltac:(discriminate)). lia.
  - rewrite fetch_surah_attempts.
    destruct (surah_attempts_shape surah [0; 1; 2]%nat documents w)
      as (_ & Hev & _). exact Hev.
  - intros Hfail.
    rewrite (surah_third_attempt surah documents w)
      by (apply Hfail; lia).
    specialize (Hfail 2%nat ltac:(lia)).
    destruct (quran_api w 2) as [s j|m]; [|reflexivity].
    cbn in Hfail. apply negb_true_iff in Hfail. rewrite Hfail. reflexivity.
Qed.

Lemma surah_requests_bounded_witness :
  fetch_surah 7 [lit "kept"] offline
  = (Ok [lit "kept"],
     [Get (surah_url 7) ∅; Sleep 2; Get (surah_url 7) ∅; Sleep 2;
      Get (surah_url 7) ∅],
     pop_quran_n 3 offline).
Proof.
  apply (surah_requests_bounded 7 [lit "kept"] offline).
  intros i _. reflexivity.
Defined.

(** The loop over the surahs. *)
Lemma surah_loop_shape (surahs : list nat) :
  forall (documents : list (list N)) (w : world),
  match outcome_of (surah_loop surahs documents) w with
  | Ok d =>
      (exists more, d = documents ++ more)
      /\ (length surahs <= requests_in (trace (surah_loop surahs documents) w))%nat
  | Raise e => exn_class_of e = IndexError
  end
  /\ (requests_in (trace (surah_loop surahs documents) w)
      <= 3 * length surahs)%nat
  /\ indexed_in (trace (surah_loop surahs documents) w) = []
  /\ index_error (snd (surah_loop surahs documents w)) = index_error w.
Proof.
  induction surahs as [|surah rest IH]; intros documents w.
  - cbn. split; [|auto]. split; [|lia].
    exists []. symmetry. apply app_nil_r.
  - cbn [surah_loop]. rewrite bind_trace. unfold outcome_of, trace.
    unfold mbind, M_bind, Net.bind.
    destruct (surah_attempts_shape surah [0; 1; 2]%nat documents w)
      as (Ho & Hev & Hn & H1 & Hi & _).
    specialize (H1 ltac:(discriminate)). cbn [length] in Hn.
    unfold outcome_of, trace in *. rewrite <- fetch_surah_attempts in *.
    assert (Hnoidx : indexed_in (snd (fst (fetch_surah surah documents w)))
                     = []).
    { clear -Hev. induction Hev as [|ev tr [->| ->] _ IHt]; [reflexivity| |];
        exact IHt. }
    destruct (fetch_surah surah documents w) as [[[d|e] tr] w'];
      cbn [fst snd] in *.
    + destruct (IH d w') as (Ho' & Hn' & Hx' & Hi').
      unfold outcome_of, trace in *.
      destruct (surah_loop rest d w') as [[r tr'] w'']; cbn [fst snd] in *.
      rewrite requests_in_app. cbn [length].
      unfold indexed_in in *. rewrite omap_app, Hnoidx, Hx'.
      split; [|repeat split; try lia; congruence].
      destruct r as [d'|e']; [|exact Ho'].
      destruct Ho as (more & ->). destruct Ho' as ((more' & ->) & Hlen).
      split; [|lia]. exists (more ++ more'). rewrite app_assoc. reflexivity.
    + rewrite app_nil_r. cbn [length].
      split; [exact Ho|]. repeat split; try lia; assumption.
Qed.

Lemma quran_api_pop_n (n i : nat) (w : world) :
  quran_api (pop_quran_n n w) i = quran_api w (n + i).
Proof.
  revert w. induction n as [|n IH]; intros w; [reflexivity|].
  cbn. rewrite IH. reflexivity.
Qed.

Lemma pop_quran_n_add (a b : nat) (w : world) :
  pop_quran_n (a + b) w = pop_quran_n b (pop_quran_n a w).
Proof.
  revert w. induction a as [|a IH]; intros w; [reflexivity|].
  cbn. apply IH.
Qed.

Lemma hadith_api_pop_quran_n (n : nat) (w : world) :
  hadith_api (pop_quran_n n w) = hadith_api w
  /\ index_error (pop_quran_n n w) = index_error w.
Proof.
  revert w. induction n as [|n IH]; intros w; [split; reflexivity|].
  cbn. destruct (IH (pop_quran w)) as [-> ->]. split; reflexivity.
Qed.

(** When no attempt gets a 200, every surah is asked for three times and
    the documents stay as they were. *)
Lemma surah_loop_all_failed (surahs : list nat) :
  forall (documents : list (list N)) (w : world),
  (forall i, surah_failed (quran_api w i) = true) ->
  surah_loop surahs documents w
  = (Ok documents,
     concat (map (fun surah =>
                    failed_attempts (Get (surah_url surah) ∅) retry_delay 2
                    ++ [Get (surah_url surah) ∅]) surahs),
     pop_quran_n (3 * length surahs) w).
Proof.
  induction surahs as [|surah rest IH]; intros documents w Hfail.
  - reflexivity.
  - cbn [surah_loop]. unfold mbind, M_bind, Net.bind.
    rewrite (surah_third_attempt surah documents w) by apply Hfail.
    assert (H2 := Hfail 2%nat).
    assert (Hok : match quran_api w 2 with
                  | Response status_code json =>
                      if status_code =? 200
                      then pair_ayahs surah (english_ayahs json) 1
                             (arabic_ayahs json) documents
                      else Ok documents
                  | Unreachable _ => Ok documents
                  end = Ok documents).
    { destruct (quran_api w 2) as [s j|m]; [|reflexivity].
      cbn in H2. apply negb_true_iff in H2. rewrite H2. reflexivity. }
    rewrite Hok.
    rewrite (IH documents (pop_quran (pop_quran (pop_quran w)))).
    + cbn [map concat length].
      replace (3 * S (length rest))%nat with (3 + 3 * length rest)%nat by lia.
      rewrite pop_quran_n_add. reflexivity.
    + intros i. change (quran_api (pop_quran (pop_quran (pop_quran w))) i)
        with (quran_api w (S (S (S i)))). apply Hfail.
Qed.

Lemma all_failed_requests (surahs : list nat) :
  requests_in
    (concat (map (fun surah =>
                    failed_attempts (Get (surah_url surah) ∅) retry_delay 2
                    ++ [Get (surah_url surah) ∅]) surahs))
  = (3 * length surahs)%nat
  /\ indexed_in
       (concat (map (fun surah =>
                       failed_attempts (Get (surah_url surah) ∅) retry_delay 2
                       ++ [Get (surah_url surah) ∅]) surahs)) = [].
Proof.
  induction surahs as [|surah rest [IHr IHi]]; [split; reflexivity|].
  cbn [map concat length]. unfold indexed_in in *.
  rewrite requests_in_app, omap_app, IHr, IHi. split; [|reflexivity].
  change (requests_in
            (failed_attempts (Get (surah_url surah) ∅) retry_delay 2
             ++ [Get (surah_url surah) ∅])) with 3%nat. lia.
Qed.

(** X11. The fetch of the Quran sends at most 342 requests and never
    builds the vector store; when it returns, it has sent at least 114
    requests and its documents extend the ones it had; and failed
    requests never make it raise: when no attempt gets a 200 (other
    statuses, or no response), it returns the documents as they were
    after exactly 342 requests. *)
Theorem quran_requests_bounded (documents : list (list N)) (w : world) :
  (requests_in (trace (fetch_quran documents) w) <= 342)%nat
  /\ indexed_in (trace (fetch_quran documents) w) = []
  /\ (forall d, outcome_of (fetch_quran documents) w = Ok d ->
        (exists more, d = documents ++ more)
        /\ (114 <= requests_in (trace (fetch_quran documents) w))%nat)
  /\ ((forall i, surah_failed (quran_api w i) = true) ->
      outcome_of (fetch_quran documents) w = Ok documents
      /\ requests_in (trace (fetch_quran documents) w) = 342%nat
      /\ snd (fetch_quran documents w) = pop_quran_n 342 w).
Proof.
  unfold fetch_quran.
  destruct (surah_loop_shape (seq 1 total_surahs) documents w)
    as (Ho & Hn & Hx & _).
  rewrite length_seq in *. change total_surahs with 114%nat in *.
  split; [lia|]. split; [exact Hx|]. split.
  - intros d Hd. rewrite Hd in Ho. exact Ho.
  - intros Hfail. unfold outcome_of, trace.
    rewrite (surah_loop_all_failed (seq 1 114) documents w Hfail).
    cbn [fst snd]. rewrite length_seq.
    destruct (all_failed_requests (seq 1 114)) as [Hr _].
    rewrite length_seq in Hr. split; [reflexivity|]. split; [exact Hr|].
    reflexivity.
Qed.

Lemma quran_requests_bounded_witness :
  outcome_of (fetch_quran [lit "kept"]) offline = Ok [lit "kept"]
  /\ requests_in (trace (fetch_quran [lit "kept"]) offline) = 342%nat.
Proof.
  destruct (proj2 (proj2 (proj2 (quran_requests_bounded [lit "kept"] offline))))
    as (Ho & Hr & _); [intros i; reflexivity|].
  split; [exact Ho | exact Hr].
Defined.

Lemma surah_loop_in_order (surahs : list nat) :
  forall (bodies : list quran_body) (documents : list (list N)) (w : world),
  length bodies = length surahs ->
  Forall (fun body => (length (arabic_ayahs body)
                       <= length (english_ayahs body))%nat) bodies ->
  (forall (i : nat) (body : quran_body),
      bodies !! i = Some body -> quran_api w i = Response 200 body) ->
  surah_loop surahs documents w
  = (Ok (documents ++ paired_all surahs bodies),
     map (fun surah => Get (surah_url surah) ∅) surahs,
     pop_quran_n (length surahs) w).
Proof.
  induction surahs as [|surah rest IH]; intros bodies documents w Hlen Hal Hw.
  - cbn. rewrite app_nil_r. reflexivity.
  - destruct bodies as [|body bodies]; [discriminate|].
    inversion Hal as [|? ? Hb Hbs]; subst.
    cbn [surah_loop]. unfold mbind, M_bind, Net.bind.
    rewrite fetch_surah_attempts, surah_attempts_step.
    rewrite (Hw 0%nat body eq_refl). cbn [Z.eqb Pos.eqb].
    rewrite pair_ayahs_aligned by (cbn; lia). rewrite drop_0.
    rewrite (IH bodies _ (pop_quran w)).
    + cbn [paired_all map length pop_quran_n app].
      unfold paired. rewrite <- app_assoc. reflexivity.
    + cbn in Hlen. lia.
    + exact Hbs.
    + intros i b Hb'. apply (Hw (S i)). exact Hb'.
Qed.

(** X12. When the Quran service answers every surah at the first attempt
    and no translation is shorter than its original, the fetch sends one
    request per surah, 1 to 114 in order, with no delay, and returns the
    documents of the surahs in that order, one per ayah. *)
Theorem quran_in_order (bodies : list quran_body)
    (documents : list (list N)) (w : world) :
  length bodies = 114%nat ->
  Forall (fun body => (length (arabic_ayahs body)
                       <= length (english_ayahs body))%nat) bodies ->
  (forall (i : nat) (body : quran_body),
      bodies !! i = Some body -> quran_api w i = Response 200 body) ->
  fetch_quran documents w
  = (Ok (documents ++ paired_all (seq 1 114) bodies),
     map (fun surah => Get (surah_url surah) ∅) (seq 1 114),
     pop_quran_n 114 w).
Proof.
  intros Hlen Hal Hw. unfold fetch_quran.
  change total_surahs with 114%nat.
  rewrite (surah_loop_in_order (seq 1 114) bodies documents w);
    [rewrite length_seq; reflexivity | rewrite length_seq; exact Hlen
     | exact Hal | exact Hw].
Qed.

Lemma quran_in_order_witness :
  fetch_quran [] (with_quran (fun _ => Response 200 two_ayahs) offline)
  = (Ok (paired_all (seq 1 114) (replicate 114 two_ayahs)),
     map (fun surah => Get (surah_url surah) ∅) (seq 1 114),
     pop_quran_n 114 (with_quran (fun _ => Response 200 two_ayahs) offline)).
Proof.
  apply (quran_in_order (replicate 114 two_ayahs) []
           (with_quran (fun _ => Response 200 two_ayahs) offline)).
  - apply length_replicate.
  - apply Forall_replicate. cbn. lia.
  - intros i body Hb. apply lookup_replicate in Hb as [-> _]. reflexivity.
Defined.

End QuranMore.

(** ** [load_data] as a whole *)

Section LoadDataMore.
Import Quran LoadData.

Lemma indexed_in_app (tr tr' : list event) :
  indexed_in (tr ++ tr') = indexed_in tr ++ indexed_in tr'.
Proof. apply omap_app. Qed.

(** The hadith loop: how it ends, how often it asks, and what it leaves
    alone. *)
Lemma collection_loop_shape (hadith_api_key : list N) (cs : list (list N)) :
  forall (documents : list (list N)) (w : world),
  match outcome_of (collection_loop hadith_api_key cs documents) w with
  | Ok d =>
      (exists more, d = documents ++ more)
      /\ requests_in (trace (collection_loop hadith_api_key cs documents) w)
         = length cs
  | Raise e => exn_class_of e = RequestException
  end
  /\ (requests_in (trace (collection_loop hadith_api_key cs documents) w)
      <= length cs)%nat
  /\ indexed_in (trace (collection_loop hadith_api_key cs documents) w) = []
  /\ index_error (snd (collection_loop hadith_api_key cs documents w))
     = index_error w.
Proof.
  induction cs as [|c cs IH]; intros documents w.
  - cbn. split; [|auto]. split; [|reflexivity].
    exists []. symmetry. apply app_nil_r.
  - unfold outcome_of, trace in *. rewrite collection_loop_cons.
    rewrite fetch_collection_run. cbn [fst snd].
    assert (Hgo : forall documents',
               (exists more, documents' = documents ++ more) ->
               let x := after [Get (keyed_url hadith_url hadith_api_key)
                                   (hadith_params hadith_api_key c)]
                          (collection_loop hadith_api_key cs documents'
                             (pop_hadith w)) in
               match fst (fst x) with
               | Ok d =>
                   (exists more, d = documents ++ more)
                   /\ requests_in (snd (fst x)) = length (c :: cs)
               | Raise e => exn_class_of e = RequestException
               end
               /\ (requests_in (snd (fst x)) <= length (c :: cs))%nat
               /\ indexed_in (snd (fst x)) = []
               /\ index_error (snd x) = index_error w).
    { intros documents' (more & ->). cbv zeta. unfold after. cbn [fst snd].
      destruct (IH (documents ++ more) (pop_hadith w)) as (Ho & Hn & Hx & Hi).
      rewrite requests_in_app, indexed_in_app, Hx. cbn [length].
      change (requests_in [Get (keyed_url hadith_url hadith_api_key)
                               (hadith_params hadith_api_key c)])
        with 1%nat.
      split; [|repeat split; try lia; assumption].
      destruct (fst (fst (collection_loop hadith_api_key cs
                            (documents ++ more) (pop_hadith w))))
        as [d|e]; [|exact Ho].
      destruct Ho as ((more' & ->) & Hlen). split; [|lia].
      exists (more ++ more'). rewrite app_assoc. reflexivity. }
    cbv zeta in Hgo.
    assert (Hsame : exists more : list (list N), documents = documents ++ more).
    { exists []. symmetry. apply app_nil_r. }
    destruct (hadith_api w 0) as [s j|msg].
    + destruct (s =? 200); [destruct j as [hadiths|]|];
        (apply Hgo; eauto).
    + cbn. repeat split; lia.
Qed.

Lemma hadith_api_pop_n (n i : nat) (w : world) :
  hadith_api (pop_hadith_n n w) i = hadith_api w (n + i).
Proof.
  revert w. induction n as [|n IH]; intros w; [reflexivity|].
  cbn. rewrite IH. reflexivity.
Qed.

Lemma index_error_pop_hadith_n (n : nat) (w : world) :
  index_error (pop_hadith_n n w) = index_error w.
Proof.
  revert w. induction n as [|n IH]; intros w; [reflexivity|].
  cbn. rewrite IH. reflexivity.
Qed.

(** Collections that are refused, with any status but 200, are passed
    over one after the other. *)
Lemma collection_loop_all_refused (hadith_api_key : list N)
    (cs : list (list N)) :
  forall (documents : list (list N)) (w : world),
  (forall i, (i < length cs)%nat ->
             exists status_code json,
               hadith_api w i = Response status_code json
               /\ status_code <> 200) ->
  collection_loop hadith_api_key cs documents w
  = (Ok documents,
     map (fun collection =>
            Get (keyed_url hadith_url hadith_api_key)
                (hadith_params hadith_api_key collection)) cs,
     pop_hadith_n (length cs) w).
Proof.
  induction cs as [|c cs IH]; intros documents w Href; [reflexivity|].
  rewrite collection_loop_cons, fetch_collection_run. cbn [fst snd].
  destruct (Href 0%nat) as (s & j & Hw & Hs); [cbn; lia|].
  rewrite Hw. apply Z.eqb_neq in Hs. rewrite Hs.
  rewrite (IH documents (pop_hadith w)).
  - reflexivity.
  - intros i Hi. apply (Href (S i)). cbn. lia.
Qed.

(** X17. The hadith loop of [load_data] sends at most one request per
    collection and never builds the vector store; when it returns, it
    has sent exactly one request per collection and its documents extend
    the ones it had; and a refusal does not stop it: when every
    collection is answered with a status other than 200, it returns the
    documents as they were after one request per collection, with no
    delay. *)
Theorem hadith_loop_outcome (hadith_api_key : list N) (cs : list (list N))
    (documents : list (list N)) (w : world) :
  (requests_in (trace (collection_loop hadith_api_key cs documents) w)
   <= length cs)%nat
  /\ indexed_in (trace (collection_loop hadith_api_key cs documents) w) = []
  /\ (forall d,
        outcome_of (collection_loop hadith_api_key cs documents) w = Ok d ->
        (exists more, d = documents ++ more)
        /\ requests_in (trace (collection_loop hadith_api_key cs documents) w)
           = length cs)
  /\ ((forall i, (i < length cs)%nat ->
                 exists status_code json,
                   hadith_api w i = Response status_code json
                   /\ status_code <> 200) ->
      collection_loop hadith_api_key cs documents w
      = (Ok documents,
         map (fun collection =>
                Get (keyed_url hadith_url hadith_api_key)
                    (hadith_params hadith_api_key collection)) cs,
         pop_hadith_n (length cs) w)).
Proof.
  destruct (collection_loop_shape hadith_api_key cs documents w)
    as (Ho & Hn & Hx & _).
  split; [exact Hn|]. split; [exact Hx|]. split.
  - intros d Hd. rewrite Hd in Ho. exact Ho.
  - apply collection_loop_all_refused.
Qed.

Lemma hadith_loop_outcome_witness :
  collection_loop key collections [lit "kept"] not_found
  = (Ok [lit "kept"],
     [Get (keyed_url hadith_url key) (hadith_params key (lit "sahih-bukhari"));
      Get (keyed_url hadith_url key) (hadith_params key (lit "sahih-muslim"))],
     pop_hadith_n 2 not_found).
Proof.
  apply (hadith_loop_outcome key collections [lit "kept"] not_found).
  intros i _. exists 404, None. split; [reflexivity | discriminate].
Defined.

(** [load_data], phase by phase. *)
Lemma load_data_run (HADITH_API_KEY : option (list N)) (w : world) :
  load_data HADITH_API_KEY w
  = match fetch_quran [] w with
    | (Raise e, tr, w1) => (Raise e, tr, w1)
    | (Ok documents, tr, w1) =>
        match HADITH_API_KEY with
        | None | Some [] => (Ok None, tr, w1)
        | Some (c :: k) =>
            match collection_loop (c :: k) collections documents w1 with
            | (Raise e, tr2, w2) => (Raise e, tr ++ tr2, w2)
            | (Ok documents', tr2, w2) =>
                (match index_error w2 with
                 | Some e => Raise e
                 | None => Ok (Some documents')
                 end,
                 tr ++ tr2 ++ [CreateIndex documents'], w2)
            end
        end
    end.
Proof.
  unfold load_data. generalize collections. intros cs.
  cbv beta iota zeta delta [mbind M_bind Net.bind mret M_ret Net.ret].
  destruct (fetch_quran [] w) as [[[documents|e] tr] w1]; [|reflexivity].
  destruct HADITH_API_KEY as [[|c k]|];
    try (rewrite app_nil_r; reflexivity).
  destruct (collection_loop (c :: k) cs documents w1)
    as [[[documents'|e] tr2] w2]; [|reflexivity].
  unfold create_index. destruct (index_error w2); [reflexivity|].
  rewrite app_nil_r. reflexivity.
Qed.



(** X18. Failed requests to the Quran service and refusals of the hadith
    service never make [load_data] raise: when no attempt at a surah gets
    a 200 and both collections are answered with a status other than 200,
    [load_data] goes through its 342 and 2 requests and still builds the
    vector store, from no document at all; it raises only if that build
    raises, and then with the exception of the build. *)
Theorem load_data_survives_failures (c : N) (k : list N) (w : world) :
  (forall i, surah_failed (quran_api w i) = true) ->
  (forall i, (i < 2)%nat ->
             exists status_code json,
               hadith_api w i = Response status_code json
               /\ status_code <> 200) ->
  outcome_of (load_data (Some (c :: k))) w
  = match index_error w with
    | Some e => Raise e
    | None => Ok (Some [])
    end
  /\ indexed_in (trace (load_data (Some (c :: k))) w) = [[]]
  /\ requests_in (trace (load_data (Some (c :: k))) w) = 344%nat.
Proof.
  intros Hq Hh. unfold outcome_of, trace. rewrite load_data_run.
  unfold fetch_quran.
  rewrite (surah_loop_all_failed (seq 1 total_surahs) [] w Hq).
  destruct (all_failed_requests (seq 1 total_surahs)) as [Hr Hi].
  set (tr1 := concat (map (fun surah =>
                             failed_attempts (Get (surah_url surah) ∅)
                               retry_delay 2
                             ++ [Get (surah_url surah) ∅])
                        (seq 1 total_surahs))) in *.
  set (w1 := pop_quran_n (3 * length (seq 1 total_surahs)) w).
  assert (Hw1 : hadith_api w1 = hadith_api w /\ index_error w1 = index_error w)
    by apply hadith_api_pop_quran_n.
  destruct Hw1 as [Hha Hie].
  rewrite (collection_loop_all_refused (c :: k) collections [] w1)
    by (rewrite Hha; exact Hh).
  rewrite index_error_pop_hadith_n, Hie.
  rewrite length_seq in Hr. change total_surahs with 114%nat in Hr.
  split; [|split].
  - destruct (index_error w); reflexivity.
  - cbn [fst snd]. rewrite !indexed_in_app, Hi. reflexivity.
  - cbn [fst snd]. rewrite !requests_in_app, Hr. reflexivity.
Qed.

Lemma load_data_survives_failures_witness :
  outcome_of (load_data (Some key))
    (with_hadith (fun _ => Response 404 None) offline) = Ok (Some [])
  /\ requests_in
       (trace (load_data (Some key))
          (with_hadith (fun _ => Response 404 None) offline)) = 344%nat.
Proof.
  destruct (load_data_survives_failures 115 (tl key)
              (with_hadith (fun _ => Response 404 None) offline))
    as (Ho & _ & Hr).
  - intros i. reflexivity.
  - intros i _. exists 404, None. split; [reflexivity | discriminate].
  - split; [exact Ho | exact Hr].
Defined.

End LoadDataMore.

(** ** The startup *)

Section StartupMore.
Import Answering Http LoadData Startup.

Lemma setup_without_store (fw : framework) (c : option chain) :
  try_except_return
    (setup_qa_chain fw {| vector_store := None; qa_chain := c |})
    (fun _ => {| vector_store := None; qa_chain := c |})
  = {| vector_store := None; qa_chain := c |}.
Proof.
  unfold setup_qa_chain. destruct (new_llm fw); reflexivity.
Qed.

(** X13. Without a hadith key the service never becomes ready: after the
    startup there is neither a vector store nor a chain, whatever the
    services and the framework do, and every question gets the error
    result of an uninitialized chain. *)
Theorem no_hadith_key_never_ready (fw : framework)
    (HADITH_API_KEY : option (list N)) (w : world) (question : list N) :
  HADITH_API_KEY = None \/ HADITH_API_KEY = Some [] ->
  started fw HADITH_API_KEY w = init
  /\ indexed_in (trace (load_data HADITH_API_KEY) w) = []
  /\ answer_question (qa_chain (started fw HADITH_API_KEY w)) question
     = (error_result msg_uninitialized, []).
Proof.
  intros HK.
  assert (Hs : started fw HADITH_API_KEY w = init).
  { unfold started, startup_event. rewrite load_data_run.
    destruct (Quran.fetch_quran [] w) as [[[documents|e] tr] w1];
      [|reflexivity].
    destruct HK as [-> | ->]; apply setup_without_store. }
  split; [exact Hs|]. split.
  - unfold trace. rewrite load_data_run.
    destruct (surah_loop_shape (seq 1 Quran.total_surahs) [] w)
      as (_ & _ & Hq & _).
    unfold trace in Hq. unfold Quran.fetch_quran.
    destruct (Quran.surah_loop (seq 1 Quran.total_surahs) [] w)
      as [[[documents|e'] tr'] w1]; cbn [fst snd] in *; [|exact Hq].
    destruct HK as [-> | ->]; exact Hq.
  - rewrite Hs. reflexivity.
Qed.

Lemma no_hadith_key_never_ready_witness :
  started working None generous = init
  /\ answer_question (qa_chain (started working (Some []) generous))
       (lit "What is patience?")
     = (error_result msg_uninitialized, []).
Proof.
  split.
  - apply (no_hadith_key_never_ready working None generous []). left.
    reflexivity.
  - apply (no_hadith_key_never_ready working (Some []) generous
             (lit "What is patience?")). right. reflexivity.
Defined.

(** X14. After the startup the chain is set exactly when [load_data]
    returned with the vector store built, [ChatOpenAI] did not raise and
    [RetrievalQA.from_chain_type] over that store returned the chain. *)
Theorem ready_exactly_when (fw : framework)
    (HADITH_API_KEY : option (list N)) (w : world) (c : chain) :
  qa_chain (started fw HADITH_API_KEY w) = Some c
  <-> new_llm fw = None
      /\ exists d, outcome_of (load_data HADITH_API_KEY) w = Ok (Some d)
                   /\ from_chain_type fw d = Ok c.
Proof.
  unfold started, startup_event, outcome_of.
  destruct (load_data HADITH_API_KEY w) as [[[[d|]|e] tr] w'];
    cbn [fst snd].
  - unfold setup_qa_chain. cbn [vector_store as_retriever bind_result].
    destruct (new_llm fw) as [e|]; cbn.
    + split; [discriminate | intros [H _]; discriminate].
    + destruct (from_chain_type fw d) as [c'|e] eqn:Ec; cbn.
      * split.
        -- intros [= <-]. split; [reflexivity|]. exists d. auto.
        -- intros (_ & d' & [= <-] & Hc). congruence.
      * split; [discriminate|].
        intros (_ & d' & [= <-] & Hc). congruence.
  - rewrite setup_without_store. cbn.
    split; [discriminate | intros (_ & d & H & _); discriminate].
  - cbn. split; [discriminate | intros (_ & d & H & _); discriminate].
Qed.

Lemma ready_exactly_when_witness :
  qa_chain (started working (Some key) generous) = Some talkative.
Proof.
  apply (ready_exactly_when working (Some key) generous talkative).
  split; [reflexivity|]. eexists. split; [vm_compute; reflexivity|].
  reflexivity.
Defined.

(** X15. When [load_data] raises, the startup catches the exception and
    the service stays as it was created: no store, no chain; from then on
    every request to [/api/chat] is answered with status 500. *)
Theorem failed_startup_answers_500
    (str_HTTPException : Z -> option (list N) -> list N) (fw : framework)
    (HADITH_API_KEY : option (list N)) (w : world) (e : exn)
    (question : list N) :
  outcome_of (load_data HADITH_API_KEY) w = Raise e ->
  started fw HADITH_API_KEY w = init
  /\ chat str_HTTPException (qa_chain (started fw HADITH_API_KEY w)) question
     = Raise (mk_exn
                (HTTPException 500
                   (Some (str_HTTPException 400 (Some msg_uninitialized))))
                (str_HTTPException 500
                   (Some (str_HTTPException 400 (Some msg_uninitialized)))))
  /\ http_status
       (chat str_HTTPException (qa_chain (started fw HADITH_API_KEY w))
          question) = 500.
Proof.
  intros Hr.
  assert (Hs : started fw HADITH_API_KEY w = init).
  { unfold started, startup_event. unfold outcome_of in Hr.
    destruct (load_data HADITH_API_KEY w) as [[[b|e'] tr] w'];
      [discriminate | reflexivity]. }
  split; [exact Hs|]. rewrite Hs. cbn [qa_chain init].
  rewrite (chat_error str_HTTPException None question msg_uninitialized)
    by reflexivity.
  split; reflexivity.
Qed.

Lemma failed_startup_answers_500_witness :
  http_status
    (chat (fun _ d => default [] d)
       (qa_chain (started working (Some key) hadith_down))
       (lit "What is patience?")) = 500.
Proof.
  apply (failed_startup_answers_500 (fun _ d => default [] d) working
           (Some key) hadith_down
           (mk_exn RequestException (lit "connection refused"))
           (lit "What is patience?")).
  vm_compute. reflexivity.
Defined.

End StartupMore.

(** ** The migration *)

Section MigrationMore.
Import Migration.

Lemma apart_name (schema : list table) (t : table) (name : string) :
  apart schema -> In t schema -> In name created_names -> tbl_name t <> name.
Proof.
  intros Ha Ht Hn E. unfold apart in Ha. rewrite Forall_forall in Ha.
  destruct (Ha t) as [Hnot _]; [apply list_elem_of_In; exact Ht|].
  apply Hnot. apply list_elem_of_In. rewrite E. exact Hn.
Qed.

Lemma apart_references (schema : list table) (t : table) (name : string) :
  apart schema -> In t schema -> In name created_names ->
  references name t = false.
Proof.
  intros Ha Ht Hn. unfold apart in Ha. rewrite Forall_forall in Ha.
  destruct (Ha t) as [_ Hr]; [apply list_elem_of_In; exact Ht|].
  rewrite Forall_forall in Hr. apply Hr. apply list_elem_of_In. exact Hn.
Qed.

(** A name of the migration is looked up past the tables that were there
    before. *)
Lemma find_table_apart (schema l : list table) (name : string) :
  apart schema -> In name created_names ->
  find_table name (schema ++ l) = find_table name l.
Proof.
  intros Ha Hn. unfold find_table.
  induction schema as [|t schema IH]; [reflexivity|].
  cbn [app find].
  rewrite bool_decide_eq_false_2
    by (apply (apart_name (t :: schema) t name Ha); [left; reflexivity | exact Hn]).
  apply IH. unfold apart in *. inversion Ha; assumption.
Qed.

Lemma foreign_keys_apart (schema l : list table) (t : table) :
  apart schema -> points_inside t = true ->
  forallb (foreign_key_ok (schema ++ l) t) (constraints t)
  = forallb (foreign_key_ok l t) (constraints t).
Proof.
  intros Ha. unfold points_inside.
  induction (constraints t) as [|c cs IH]; [reflexivity|].
  cbn [forallb]. intros H. apply andb_prop in H as [Hc Hcs].
  rewrite (IH Hcs). f_equal.
  destruct c as [cols|cols|cols ref_table ref_cols]; try reflexivity.
  cbn [foreign_key_ok]. apply bool_decide_eq_true in Hc.
  rewrite <- app_assoc.
  rewrite (find_table_apart schema (l ++ [t]) ref_table Ha)
    by (apply list_elem_of_In; exact Hc).
  reflexivity.
Qed.

(** A table of the migration is created after [schema] as it is created
    after nothing. *)
Lemma create_apart (schema l : list table) (t : table) :
  apart schema -> In (tbl_name t) created_names -> points_inside t = true ->
  apply_operation (create_table t) l = inr (l ++ [t]) ->
  apply_operation (create_table t) (schema ++ l) = inr (schema ++ l ++ [t]).
Proof.
  intros Ha Hn Hp. cbn [apply_operation].
  rewrite (find_table_apart schema l (tbl_name t) Ha Hn).
  rewrite (foreign_keys_apart schema l t Ha Hp).
  destruct (bool_decide (is_Some (find_table (tbl_name t) l)));
    [discriminate|].
  destruct (forallb (foreign_key_ok l t) (constraints t)); [|discriminate].
  intros _. rewrite <- app_assoc. reflexivity.
Qed.

(** And dropped likewise. *)
Lemma drop_apart (schema l l' : list table) (name : string) :
  apart schema -> In name created_names ->
  apply_operation (drop_table name) l = inr l' ->
  apply_operation (drop_table name) (schema ++ l) = inr (schema ++ l').
Proof.
  intros Ha Hn. cbn [apply_operation].
  rewrite (find_table_apart schema l name Ha Hn).
  destruct (find_table name l) as [t|]; [|discriminate].
  rewrite existsb_app.
  assert (Hs : existsb (fun t0 => negb (bool_decide (tbl_name t0 = name))
                                  && references name t0) schema = false).
  { clear -Ha Hn. induction schema as [|t schema IH]; [reflexivity|].
    cbn [existsb].
    rewrite (apart_references (t :: schema) t name Ha) by (auto; left; auto).
    rewrite andb_false_r. apply IH. inversion Ha; assumption. }
  rewrite Hs. cbn [orb].
  destruct (existsb _ l); [discriminate|].
  intros [= <-].
  assert (Hf : filter (fun t0 => tbl_name t0 <> name) schema = schema).
  { clear -Ha Hn. induction schema as [|t schema IH]; [reflexivity|].
    rewrite filter_cons_True
      by (apply (apart_name (t :: schema) t name Ha);
          [left; reflexivity | exact Hn]).
    f_equal. apply IH. inversion Ha; assumption. }
  rewrite filter_app, Hf. reflexivity.
Qed.

Lemma run_upgrade_apart (schema : list table) :
  apart schema -> run upgrade schema = inr (schema ++ created).
Proof.
  intros Ha. unfold upgrade, created. cbn [map run].
  rewrite <- (app_nil_r schema) at 1.
  repeat (rewrite (create_apart schema _ _ Ha);
          [cbn [app] | vm_compute; tauto | reflexivity | reflexivity]).
  reflexivity.
Qed.

Lemma run_downgrade_apart (schema : list table) :
  apart schema -> run downgrade (schema ++ created) = inr schema.
Proof.
  intros Ha. unfold downgrade, created. cbn [run].
  repeat (erewrite (drop_apart schema _ _ _ Ha);
          [ | vm_compute; tauto | vm_compute; reflexivity]).
  rewrite app_nil_r. reflexivity.
Qed.

(** X19. On a schema that has none of the nine tables and no table that
    points to one, [upgrade] succeeds and adds the nine tables in its
    order: each foreign key finds its table already created, with the
    referenced column as its primary key; and [downgrade] after it
    succeeds and gives the schema back as it was: no table is dropped
    while another still references it. *)
Theorem upgrade_then_downgrade (schema : list table) :
  apart schema ->
  run upgrade schema = inr (schema ++ created)
  /\ run downgrade (schema ++ created) = inr schema
  /\ run (upgrade ++ downgrade) schema = inr schema.
Proof.
  intros Ha.
  pose proof (run_upgrade_apart schema Ha) as Hu.
  pose proof (run_downgrade_apart schema Ha) as Hd.
  split; [exact Hu|]. split; [exact Hd|].
  assert (Happ : forall ops ops' s s',
             run ops s = inr s' -> run (ops ++ ops') s = run ops' s').
  { induction ops as [|o ops IH]; intros ops' s s'; cbn [run app].
    - intros [= <-]. reflexivity.
    - destruct (apply_operation o s); [discriminate|]. apply IH. }
  rewrite (Happ upgrade downgrade schema _ Hu). exact Hd.
Qed.

Lemma upgrade_then_downgrade_witness :
  run upgrade [users_table] = inr ([users_table] ++ created)
  /\ run (upgrade ++ downgrade) [users_table] = inr [users_table]
  /\ run (upgrade ++ downgrade) [] = inr [].
Proof.
  assert (Hu : apart [users_table]).
  { constructor; [|constructor]. split.
    - vm_compute. intros H. repeat (inversion H as [|? ? ? H']; subst;
        clear H; rename H' into H). 
    - repeat constructor. }
  destruct (upgrade_then_downgrade [users_table] Hu) as (H1 & _ & H3).
  split; [exact H1|]. split; [exact H3|].
  apply (upgrade_then_downgrade []). constructor.
Defined.

(** X20. The migration cannot be run twice in the same direction:
    [upgrade] on a schema that already has the table [hadith_collections]
    (so after an [upgrade]) is refused at its first operation as a
    duplicate table, and [downgrade] on a schema without [verse_topics]
    (so after a [downgrade]) is refused at its first operation as an
    undefined table. *)
Theorem migration_not_repeatable (schema : list table) :
  (is_Some (find_table "hadith_collections" schema) ->
   run upgrade schema = inl (DuplicateTable "hadith_collections"))
  /\ (find_table "verse_topics" schema = None ->
      run downgrade schema = inl (UndefinedTable "verse_topics"))
  /\ (apart schema ->
      run upgrade (schema ++ created)
      = inl (DuplicateTable "hadith_collections")
      /\ run downgrade schema = inl (UndefinedTable "verse_topics")).
Proof.
  assert (Hup : forall s, is_Some (find_table "hadith_collections" s) ->
                run upgrade s = inl (DuplicateTable "hadith_collections")).
  { intros s Hs. unfold upgrade, created. cbn [map run apply_operation].
    change (tbl_name hadith_collections) with "hadith_collections".
    rewrite bool_decide_eq_true_2 by exact Hs. reflexivity. }
  assert (Hdown : forall s, find_table "verse_topics" s = None ->
                  run downgrade s = inl (UndefinedTable "verse_topics")).
  { intros s Hs. unfold downgrade. cbn [run apply_operation].
    rewrite Hs. reflexivity. }
  split; [apply Hup|]. split; [apply Hdown|].
  intros Ha. split.
  - apply Hup.
    rewrite (find_table_apart schema created "hadith_collections" Ha)
      by (vm_compute; tauto).
    vm_compute. eauto.
  - apply Hdown.
    rewrite <- (app_nil_r schema).
    rewrite (find_table_apart schema [] "verse_topics" Ha)
      by (vm_compute; tauto).
    reflexivity.
Qed.

Lemma migration_not_repeatable_witness :
  run upgrade created = inl (DuplicateTable "hadith_collections")
  /\ run downgrade [users_table] = inl (UndefinedTable "verse_topics").
Proof.
  split.
  - apply (proj1 (migration_not_repeatable created)).
    vm_compute. eauto.
  - apply (proj1 (proj2 (migration_not_repeatable [users_table]))).
    reflexivity.
Defined.

End MigrationMore.
